(** * file-migrator: version naming, file emission and the command surface

    A shallow embedding of [migrator.go] and [command.go].  Go strings are
    byte strings ([string]); Go's [int], [uint] and [uint64] are integers in
    [Z] with the 64-bit wrap-around written out; a Go [(T, error)] result is a
    [result T].  The operating system, [path/filepath], [time] and the
    migration engine are collaborators of the package: they are the fields of
    the [Runtime] class and of the [Migrate] record, and every function that
    uses them takes the file system state or the clock reading explicitly. *)

From Stdlib Require Import ZArith Lia Ascii String.
From stdpp Require Import base strings list gmap sorting.

Local Open Scope Z_scope.

(** ** Errors and results *)

(** The two ways [strconv.ParseUint] fails ([strconv.ErrSyntax],
    [strconv.ErrRange]). *)
Inductive numErr : Type := ErrSyntax | ErrRange.

(** Go [error] values met by the package.  [errorsNew text] is a value made
    by [errors.New] (or any other error of a collaborator, known by its
    text); [ErrNoChange] is the sentinel [migrate.ErrNoChange], which the
    handlers compare by identity. *)
Inductive error : Type :=
| errInvalidSequenceWidth
| errIncompatibleSeqAndFormat
| errMalformedFilename (filename : string)
| errSeqTooLarge (version : string) (seqDigits : Z)
| errDuplicateVersion (version : string)
| NumError (Func Num : string) (Err : numErr)
| ErrNoChange
| errorsNew (text : string).

Global Instance numErr_eq_dec : EqDecision numErr.
Proof. solve_decision. Defined.

Global Instance error_eq_dec : EqDecision error.
Proof. solve_decision. Defined.

Inductive result (A : Type) : Type :=
| Ok (a : A)
| Err (e : error).
Global Arguments Ok {A} a.
Global Arguments Err {A} e.

Global Instance result_ret : MRet result := λ A a, Ok a.
Global Instance result_bind : MBind result := λ A B f r,
  match r with Ok a => f a | Err e => Err e end.

Definition is_Err {A} (r : result A) : Prop :=
  match r with Ok _ => False | Err _ => True end.

(** ** Integer types *)

Definition maxUint64 : Z := 2 ^ 64 - 1.

(** Arithmetic on [uint64] is modulo [2^64]. *)
Definition wrap_uint64 (n : Z) : Z := n mod 2 ^ 64.

(** The conversion [int(n)] of a [uint64] on a 64-bit platform: the same 64
    bits read as a two's complement number. *)
Definition int_of_uint64 (n : Z) : Z :=
  if decide (n < 2 ^ 63) then n else n - 2 ^ 64.

(** ** [strings] *)

(** [strings.Index(s, substr)]: the index of the first instance of [substr]
    in [s], or [-1]. *)
Definition strings_Index (s substr : string) : Z :=
  match String.index 0 substr s with
  | Some i => Z.of_nat i
  | None => -1
  end.

(** [strings.TrimPrefix(s, prefix)]. *)
Definition strings_TrimPrefix (s prefix : string) : string :=
  if String.prefix prefix s
  then String.substring (String.length prefix)
         (String.length s - String.length prefix) s
  else s.

(** The slice expression [s[lo:hi]] for [0 <= lo <= hi <= len(s)]. *)
Definition slice (s : string) (lo hi : Z) : string :=
  String.substring (Z.to_nat lo) (Z.to_nat (hi - lo)) s.

Definition len (s : string) : Z := Z.of_nat (String.length s).

(** [strings.Repeat(String c "", n)]. *)
Fixpoint repeat_byte (c : ascii) (n : nat) : string :=
  match n with
  | O => EmptyString
  | S n' => String c (repeat_byte c n')
  end.

(** ** [strconv] *)

Definition byte_val (c : ascii) : Z := Z.of_N (N_of_ascii c).

Definition is_digit (c : ascii) : bool :=
  (48 <=? byte_val c) && (byte_val c <=? 57).

(** The loop of [strconv.ParseUint(s, 10, 64)] over the bytes of [s], with
    the accumulator [n]: a byte that is not a decimal digit is a syntax
    error; [n >= cutoff] (so that [n*10] overflows) or a wrapped sum is a
    range error.  [s0] is the whole argument, kept for the error value. *)
Fixpoint ParseUint_loop (s0 : string) (s : string) (n : Z) : result Z :=
  match s with
  | EmptyString => Ok n
  | String c s' =>
      if is_digit c then
        let d := byte_val c - 48 in
        if decide (maxUint64 / 10 + 1 <= n) then Err (NumError "ParseUint" s0 ErrRange)
        else
          let n := n * 10 in
          let n1 := wrap_uint64 (n + d) in
          if decide (n1 < n ∨ maxUint64 < n1) then Err (NumError "ParseUint" s0 ErrRange)
          else ParseUint_loop s0 s' n1
      else Err (NumError "ParseUint" s0 ErrSyntax)
  end.

(** [strconv.ParseUint(s, 10, 64)]. *)
Definition strconv_ParseUint (s : string) : result Z :=
  match s with
  | EmptyString => Err (NumError "ParseUint" s ErrSyntax)
  | _ => ParseUint_loop s s 0
  end.

Definition digit_char (d : Z) : ascii := ascii_of_N (Z.to_N (48 + d)).

(** The digit loop of [strconv.FormatUint(u, 10)]: the last digit is written
    first, in front of what is already there, until the quotient is zero. *)
Fixpoint formatBits (fuel : nat) (u : Z) (acc : string) : string :=
  match fuel with
  | O => acc
  | S fuel' =>
      let acc' := String (digit_char (u mod 10)) acc in
      if decide (u / 10 = 0) then acc' else formatBits fuel' (u / 10) acc'
  end.

(** [strconv.FormatUint(u, 10)] for [0 <= u]. *)
Definition strconv_FormatUint (u : Z) : string :=
  formatBits (S (Z.to_nat (Z.log2 u))) u EmptyString.

(** [strconv.FormatInt(i, 10)]. *)
Definition strconv_FormatInt (i : Z) : string :=
  if decide (i < 0) then String "-" (strconv_FormatUint (- i))
  else strconv_FormatUint i.

(** ** [fmt] *)

(** [fmt]'s bound on a width taken from an argument: a larger magnitude is
    refused. *)
Definition tooLarge (x : Z) : bool := (1000000 <? x) || (x <? -1000000).

(** [fmt.Sprintf("%0[2]*[1]d", nextSeq, seqDigits)] for a [uint64] first
    argument: the width is the second argument.  A width that is
    [tooLarge] is reported in the output as [%!(BADWIDTH)] and no padding is
    done; a negative width pads with spaces on the right; otherwise the
    digits are padded with zeros on the left up to the width. *)
Definition Sprintf_seq (nextSeq seqDigits : Z) : string :=
  let digits := strconv_FormatUint nextSeq in
  if tooLarge seqDigits then "%!(BADWIDTH)" +:+ digits
  else if decide (seqDigits < 0)
  then digits +:+ repeat_byte " " (Z.to_nat (- seqDigits - len digits))
  else repeat_byte "0" (Z.to_nat (seqDigits - len digits)) +:+ digits.

(** The text of a [%d] verb applied to an [int]. *)
Definition fmt_d (i : Z) : string := strconv_FormatInt i.

(** ** The collaborators: file system, paths and time *)

(** What the package takes from the operating system and from the standard
    library packages [path/filepath], [os], [time] and [strconv].  [FS] is
    the state of the file system; [Time] is a clock reading and
    [time_In t loc] is [t.In(loc)]. *)
Class Runtime : Type := {
  FS : Type;
  filepath_Join : string → string → string;
  filepath_Base : string → string;
  filepath_Glob : FS → string → result (list string);
  os_WriteFile : FS → string → string → FS * option error;
  Time : Type;
  Location : Type;
  time_Local : Location;
  time_LoadLocation : string → result Location;
  time_In : Time → Location → Time;
  time_Format : Time → string → string;
  time_Unix : Time → Z;
  time_UnixNano : Time → Z;
  strconv_Quote : string → string;
}.

(** ** The collaborators: loggers, the engine, the migrate function *)

(** A value of the interface type [Logger].  [defaultLogger] is the
    package's own; every other implementation is known by a name. *)
Inductive Logger : Type :=
| defaultLogger
| userLogger (name : string).

(** An argument of a variadic logging call. *)
Inductive value : Type :=
| VNil
| VString (s : string)
| VUint (n : Z)
| VError (e : error).

(** The calls the engine [*migrate.Migrate] receives. *)
Inductive engineCall : Type :=
| CallUp
| CallDown
| CallSteps (n : Z)
| CallDrop
| CallForce (version : Z)
| CallMigrate (version : Z)
| CallClose.

(** What a run does to the outside, in order: the calls on a [Logger], the
    lines printed on the standard output, the settings and calls of the
    engine.  File writes are in the file system state. *)
Inductive event : Type :=
| LogPrintf (l : Logger) (format : string) (v : list value)
| LogSetVerbose (l : Logger) (b : bool)
| LogInfo (l : Logger) (msg : string) (keyAndValues : list value)
| LogError (l : Logger) (msg : string) (keyAndValues : list value)
| LogFatal (l : Logger) (msg : string) (keyAndValues : list value)
| Println (line : string)
| SetPrefetchMigrations (n : Z)
| SetLockTimeout (seconds : Z)
| Engine (c : engineCall).

(** The engine [*migrate.Migrate]: the exported fields the package reads and
    writes, and what each of its methods answers.  [Log] is an interface
    field and may be nil. *)
Record Migrate : Type := {
  Log : option Logger;
  migrate_Up : option error;
  migrate_Down : option error;
  migrate_Steps : Z → option error;
  migrate_Drop : option error;
  migrate_Force : Z → option error;
  migrate_Migrate : Z → option error;
  migrate_Close : option error * option error;
}.

(** [*result.MigrateSQLResult], seen through its three methods.  [Up] and
    [Down] are Go maps from a table name to its statements; they are listed
    here in the order in which the [range] loops of [MakeMigrate] visit
    them. *)
Record MigrateSQLResult : Type := {
  Empty : bool;
  Up : list (string * list string);
  Down : list (string * list string);
}.

(** [migrateFunc] is a function without arguments: it is known by what it
    returns, a result that is not nil or an error. *)
Record Migrator : Type := {
  migrate : Migrate;
  migrationsFilePath : string;
  migrateFunc : result MigrateSQLResult;
  logger : Logger;
}.

(** ** migrator.go *)

Definition defaultTimeFormat : string := "20060102150405".

(** The line feed. *)
Definition LF : string := String (ascii_of_N 10) EmptyString.

(** [err.Error()]. *)
Definition Error `{R : Runtime} (err : error) : string :=
  match err with
  | errInvalidSequenceWidth => "digits must be positive"
  | errIncompatibleSeqAndFormat => "the seq and format options are mutually exclusive"
  | errMalformedFilename filename => "malformed migration filename: " +:+ filename
  | errSeqTooLarge version seqDigits =>
      "next sequence number " +:+ version +:+ " too large. At most "
        +:+ fmt_d seqDigits +:+ " digits are allowed"
  | errDuplicateVersion version => "duplicate migration version: " +:+ version
  | NumError Func Num e =>
      "strconv." +:+ Func +:+ ": parsing " +:+ strconv_Quote Num +:+ ": "
        +:+ match e with
            | ErrSyntax => "invalid syntax"
            | ErrRange => "value out of range"
            end
  | ErrNoChange => "no change"
  | errorsNew text => text
  end.

(** [New(driver, databaseName, migrationsFilePath, migrateFunc)]; [instance]
    is what [migrate.NewWithDatabaseInstance] returns. *)
Definition New (instance : result Migrate) (migrationsFilePath : string)
    (migrateFunc : result MigrateSQLResult) : result Migrator :=
  m ← instance;
  Ok {| migrate := m;
        migrationsFilePath := migrationsFilePath;
        migrateFunc := migrateFunc;
        logger := defaultLogger |}.

(** [m.SetLogger(logger)]. *)
Definition SetLogger (m : Migrator) (logger : Logger) : Migrator :=
  {| migrate := {| Log := Some logger;
                   migrate_Up := migrate_Up (migrate m);
                   migrate_Down := migrate_Down (migrate m);
                   migrate_Steps := migrate_Steps (migrate m);
                   migrate_Drop := migrate_Drop (migrate m);
                   migrate_Force := migrate_Force (migrate m);
                   migrate_Migrate := migrate_Migrate (migrate m);
                   migrate_Close := migrate_Close (migrate m) |};
     migrationsFilePath := migrationsFilePath m;
     migrateFunc := migrateFunc m;
     logger := logger |}.

Section migrator.
Context `{R : Runtime}.

(** [nextSeqVersion(migrationsFilePath, ext, seqDigits)], reading the
    directory in the state [fs]. *)
Definition nextSeqVersion (fs : FS) (migrationsFilePath ext : string)
    (seqDigits : Z) : result string :=
  matches ← filepath_Glob fs (filepath_Join migrationsFilePath ("*" +:+ ext));
  if decide (seqDigits <= 0) then Err errInvalidSequenceWidth
  else
    nextSeq ← match last matches with
              | Some filename =>
                  let matchSeqStr := filepath_Base filename in
                  let idx := strings_Index matchSeqStr "_" in
                  if decide (idx < 1) then Err (errMalformedFilename filename)
                  else
                    let matchSeqStr := slice matchSeqStr 0 idx in
                    nextSeq ← strconv_ParseUint matchSeqStr;
                    Ok (wrap_uint64 (nextSeq + 1))
              | None => Ok 1
              end;
    let version := Sprintf_seq nextSeq seqDigits in
    if decide (seqDigits < len version)
    then Err (errSeqTooLarge version seqDigits)
    else Ok version.

(** [timeVersion(timeZoneName, format)]; [clock] is what [time.Now()]
    returns in the call. *)
Definition timeVersion (clock : Time) (timeZoneName format : string)
    : result string :=
  location ← (if decide (timeZoneName = "") then Ok time_Local
              else time_LoadLocation timeZoneName);
  let now := time_In clock location in
  Ok (if decide (format = "") then time_Format now defaultTimeFormat
      else if decide (format = "unix") then strconv_FormatInt (time_Unix now)
      else if decide (format = "unixNano") then strconv_FormatInt (time_UnixNano now)
      else time_Format now format).

(** Lines 137-141 of [upAndDownFilePath]: the extension with its dot. *)
Definition dotExt (ext : string) : string :=
  if decide (ext = "") then ".sql"
  else "." +:+ strings_TrimPrefix ext ".".

(** [m.upAndDownFilePath(timeZoneName, format, name, ext, seq, seqDigits)]. *)
Definition upAndDownFilePath (m : Migrator) (fs : FS) (clock : Time)
    (timeZoneName format name ext : string) (seq : bool) (seqDigits : Z)
    : result (string * string) :=
  if seq && bool_decide (format ≠ defaultTimeFormat)
  then Err errIncompatibleSeqAndFormat
  else
    let ext := dotExt ext in
    version ← (if seq then nextSeqVersion fs (migrationsFilePath m) ext seqDigits
               else timeVersion clock timeZoneName format);
    let versionGlob := filepath_Join (migrationsFilePath m) (version +:+ "_*" +:+ ext) in
    matches ← filepath_Glob fs versionGlob;
    if decide (0 < length matches)%nat
    then Err (errDuplicateVersion version)
    else
      let up := filepath_Join (migrationsFilePath m)
                  (version +:+ "_" +:+ name +:+ "." +:+ "up" +:+ ext) in
      let down := filepath_Join (migrationsFilePath m)
                    (version +:+ "_" +:+ name +:+ "." +:+ "up" +:+ ext) in
      Ok (up, down).

(** *** Running code: a state and the ways a call ends *)

Record World : Type := {
  files : FS;
  output : list event;
}.

(** A call goes on with a value, ends the process ([os.Exit], as the
    [Fatal] of a [Logger] does), or panics. *)
Inductive status (A : Type) : Type :=
| Next (a : A)
| Exited
| Panicked.
Global Arguments Next {A} a.
Global Arguments Exited {A}.
Global Arguments Panicked {A}.

Definition Cmd (A : Type) : Type := World → status A * World.

Global Instance Cmd_ret : MRet Cmd := λ A a w, (Next a, w).
Global Instance Cmd_bind : MBind Cmd := λ A B f c w,
  match c w with
  | (Next a, w') => f a w'
  | (Exited, w') => (Exited, w')
  | (Panicked, w') => (Panicked, w')
  end.

Definition emit (e : event) : Cmd unit := λ w,
  (Next tt, {| files := files w; output := output w ++ [e] |}).

Definition panic {A} : Cmd A := λ w, (Panicked, w).

Definition exit {A} : Cmd A := λ w, (Exited, w).

Definition readFS : Cmd FS := λ w, (Next (files w), w).

(** [os.WriteFile(name, data, 0666)]. *)
Definition WriteFile (name data : string) : Cmd (option error) := λ w,
  let '(fs, err) := os_WriteFile (files w) name data in
  (Next err, {| files := fs; output := output w |}).

(** [defer f()] around [body]: [f] runs when [body] returns and when it
    panics, not when the process exits. *)
Definition defer {A} (f : Cmd unit) (body : Cmd A) : Cmd A := λ w,
  match body w with
  | (Next a, w') => match f w' with
                    | (Next _, w'') => (Next a, w'')
                    | (Exited, w'') => (Exited, w'')
                    | (Panicked, w'') => (Panicked, w'')
                    end
  | (Exited, w') => (Exited, w')
  | (Panicked, w') => match f w' with
                      | (Exited, w'') => (Exited, w'')
                      | (_, w'') => (Panicked, w'')
                      end
  end.

(** A method call on an interface value that may be nil. *)
Definition Log_Printf (l : option Logger) (format : string) (v : list value)
    : Cmd unit :=
  match l with
  | Some l => emit (LogPrintf l format v)
  | None => panic
  end.

(** The body of one of the two [range] loops of [MakeMigrate]: the text
    written to the buffer. *)
Definition writeTables (tables : list (string * list string)) : string :=
  String.concat "" (map (λ '(tableName, sqlList),
    "--" +:+ tableName +:+ LF
      +:+ String.concat "" (map (λ sql, sql +:+ ";" +:+ LF) sqlList)) tables).

(** [m.MakeMigrate(timeZoneName, format, name, ext, seq, seqDigits)]. *)
Definition MakeMigrate (m : Migrator) (clock : Time)
    (timeZoneName format name ext : string) (seq : bool) (seqDigits : Z)
    : Cmd (option error) :=
  match migrateFunc m with
  | Err err => mret (Some err)
  | Ok migrateResult =>
      if Empty migrateResult then
        _ ← Log_Printf (Log (migrate m)) "no change" [];
        mret None
      else
        fs ← readFS;
        match upAndDownFilePath m fs clock timeZoneName format name ext seq seqDigits with
        | Err err => mret (Some err)
        | Ok (up, down) =>
            let upBuffer := writeTables (Up migrateResult) in
            let downBuffer := writeTables (Down migrateResult) in
            err ← WriteFile up upBuffer;
            match err with
            | Some err => mret (Some err)
            | None =>
                err ← WriteFile down downBuffer;
                match err with
                | Some err => mret (Some err)
                | None => mret None
                end
            end
        end
  end.

(** [m.Up(n)], [m.Down(n)], [m.Drop()], [m.Force(version)],
    [m.Goto(version)], [m.Close()]. *)
Definition Migrator_Up (m : Migrator) (n : Z) : Cmd (option error) :=
  if decide (n <= 0)
  then _ ← emit (Engine CallUp); mret (migrate_Up (migrate m))
  else _ ← emit (Engine (CallSteps n)); mret (migrate_Steps (migrate m) n).

Definition Migrator_Down (m : Migrator) (n : Z) : Cmd (option error) :=
  if decide (n <= 0)
  then _ ← emit (Engine CallDown); mret (migrate_Down (migrate m))
  else _ ← emit (Engine (CallSteps (- n))); mret (migrate_Steps (migrate m) (- n)).

Definition Migrator_Drop (m : Migrator) : Cmd (option error) :=
  _ ← emit (Engine CallDrop); mret (migrate_Drop (migrate m)).

Definition Migrator_Force (m : Migrator) (version : Z) : Cmd (option error) :=
  _ ← emit (Engine (CallForce version)); mret (migrate_Force (migrate m) version).

Definition Migrator_Goto (m : Migrator) (version : Z) : Cmd (option error) :=
  _ ← emit (Engine (CallMigrate version)); mret (migrate_Migrate (migrate m) version).

Definition Migrator_Close (m : Migrator) : Cmd (option error * option error) :=
  _ ← emit (Engine CallClose); mret (migrate_Close (migrate m)).

End migrator.

(** ** command.go *)

(** [strings.ToLower] and [strings.TrimSpace] on ASCII text. *)
Definition lower_byte (c : ascii) : ascii :=
  if (65 <=? byte_val c) && (byte_val c <=? 90)
  then ascii_of_N (N_of_ascii c + 32) else c.

Fixpoint strings_ToLower (s : string) : string :=
  match s with
  | EmptyString => EmptyString
  | String c s' => String (lower_byte c) (strings_ToLower s')
  end.

Fixpoint trim_left (s : string) : string :=
  match s with
  | EmptyString => EmptyString
  | String c s' => if Ascii.is_space c then trim_left s' else s
  end.

Definition strings_TrimSpace (s : string) : string :=
  String.rev (trim_left (String.rev (trim_left s))).

(** The values of the flags after the command line has been parsed. *)
Record migrateFlag : Type := {
  verbosePtr : bool;
  prefetchPtr : Z;
  lockTimeoutPtr : Z;
}.

Record createFlag : Type := {
  extPtr : string;
  seqPtr : bool;
  seqDigitsPtr : Z;
  formatPtr : string;
  tzPtr : string;
}.

Record downFlag : Type := { allPtr : bool }.

Record dropFlag : Type := { forceDropPtr : bool }.

Record migratorCobraCommandBuilder : Type := {
  migrator : Migrator;
  migrate_flag : migrateFlag;
  create_flag : createFlag;
  down_flag : downFlag;
  drop_flag : dropFlag;
}.

(** The defaults [buildCreateCmd] registers for its flags. *)
Definition createFlag_default : createFlag :=
  {| extPtr := ""; seqPtr := false; seqDigitsPtr := 6; formatPtr := ""; tzPtr := "" |}.

(** [numDownMigrationsFromArgs(applyAll, args)]. *)
Definition numDownMigrationsFromArgs (applyAll : bool) (args : list string)
    : Z * bool * option error :=
  if applyAll then
    if decide (0 < length args)%nat
    then (0, false, Some (errorsNew "-all cannot be used with other arguments"))
    else (-1, false, None)
  else
    match args with
    | [] => (-1, true, None)
    | [downValue] =>
        match strconv_ParseUint downValue with
        | Err _ => (0, false, Some (errorsNew "can't read limit argument N"))
        | Ok n => (int_of_uint64 n, false, None)
        end
    | _ => (0, false, Some (errorsNew "too many arguments"))
    end.

Section command.
Context `{R : Runtime}.
Variable builder : migratorCobraCommandBuilder.

Let lg : Logger := logger (migrator builder).

(** [builder.migrator.logger.Info], [.Error], [.Fatal], [.SetVerbose].
    [Fatal] ends the process after logging. *)
Definition Info (msg : string) (keyAndValues : list value) : Cmd unit :=
  emit (LogInfo lg msg keyAndValues).

Definition LogErr (msg : string) (keyAndValues : list value) : Cmd unit :=
  emit (LogError lg msg keyAndValues).

Definition Fatal {A} (msg : string) (keyAndValues : list value) : Cmd A :=
  _ ← emit (LogFatal lg msg keyAndValues); exit.

(** [builder.setupMigrator()].  The goroutine that waits for SIGINT is not
    part of the model. *)
Definition setupMigrator : Cmd unit :=
  _ ← (if verbosePtr (migrate_flag builder)
       then emit (LogSetVerbose lg true) else mret tt);
  _ ← emit (SetPrefetchMigrations (prefetchPtr (migrate_flag builder)));
  emit (SetLockTimeout (lockTimeoutPtr (migrate_flag builder))).

Definition value_of_error (e : option error) : value :=
  match e with Some e => VError e | None => VNil end.

(** [builder.closeMigrator()]. *)
Definition closeMigrator : Cmd unit :=
  '(sourceErr, databaseErr) ← Migrator_Close (migrator builder);
  if bool_decide (sourceErr ≠ None) || bool_decide (databaseErr ≠ None)
  then LogErr "encountered an error when close migrator"
         [VString "sourceErr"; value_of_error sourceErr;
          VString "databaseErr"; value_of_error databaseErr]
  else mret tt.

(** The last statement of the handlers; [elapsed] is
    [time.Since(startTime).Microseconds()]. *)
Definition finished (elapsed : Z) : Cmd unit :=
  if verbosePtr (migrate_flag builder)
  then Info ("Finished After " +:+ fmt_d elapsed +:+ " ms") []
  else mret tt.

(** The [Run] function of [buildCreateCmd]. *)
Definition buildCreateCmd_Run (clock : Time) (args : list string) : Cmd unit :=
  defer closeMigrator (
    _ ← setupMigrator;
    name ← match args with
           | [] => Fatal "please specify name" []
           | name :: _ => mret name
           end;
    err ← MakeMigrate (migrator builder) clock
            (tzPtr (create_flag builder)) (formatPtr (create_flag builder))
            name (extPtr (create_flag builder)) (seqPtr (create_flag builder))
            (seqDigitsPtr (create_flag builder));
    match err with
    | Some err => Fatal (Error err) []
    | None => mret tt
    end).

(** The [Run] function of [buildGotoCmd]. *)
Definition buildGotoCmd_Run (elapsed : Z) (args : list string) : Cmd unit :=
  defer closeMigrator (
    _ ← setupMigrator;
    arg ← match args with
          | [] => Fatal "please specify version argument V" []
          | arg :: _ => mret arg
          end;
    v ← match strconv_ParseUint arg with
        | Err _ => Fatal "can't read version argument V" []
        | Ok v => mret v
        end;
    err ← Migrator_Goto (migrator builder) v;
    _ ← match err with
        | Some err =>
            _ ← (if decide (err ≠ ErrNoChange) then Fatal (Error err) [] else mret tt);
            Info (Error err) []
        | None => mret tt
        end;
    finished elapsed).

(** The [Run] function of [buildUpCommand]. *)
Definition buildUpCommand_Run (elapsed : Z) (args : list string) : Cmd unit :=
  defer closeMigrator (
    _ ← setupMigrator;
    limit ← match args with
            | arg :: _ =>
                match strconv_ParseUint arg with
                | Err err => Fatal "can't read limit argument N" [VString "error"; VError err]
                | Ok n => mret (int_of_uint64 n)
                end
            | [] => mret (-1)
            end;
    err ← Migrator_Up (migrator builder) limit;
    _ ← match err with
        | Some err =>
            _ ← (if decide (err ≠ ErrNoChange) then Fatal (Error err) [] else mret tt);
            Info (Error err) []
        | None => mret tt
        end;
    finished elapsed).

(** The [Run] function of [buildDownCommand]; [response] is what
    [fmt.Scanln] reads. *)
Definition buildDownCommand_Run (response : string) (elapsed : Z)
    (args : list string) : Cmd unit :=
  defer closeMigrator (
    _ ← setupMigrator;
    let '(num, needsConfirm, err) :=
      numDownMigrationsFromArgs (allPtr (down_flag builder)) args in
    _ ← match err with
        | Some err => Fatal (Error err) []
        | None => mret tt
        end;
    _ ← (if needsConfirm then
           _ ← emit (Println "Are you sure you want to apply all down migrations? [y/N]");
           let response := strings_ToLower (strings_TrimSpace response) in
           if decide (response = "y")
           then Info "Applying all down migrations" []
           else Fatal "Not applying all down migrations" []
         else mret tt);
    err ← Migrator_Down (migrator builder) num;
    _ ← match err with
        | Some err =>
            _ ← (if decide (err ≠ ErrNoChange) then Fatal (Error err) [] else mret tt);
            Info (Error err) []
        | None => mret tt
        end;
    finished elapsed).

(** The [Run] function of [buildDropCommand]. *)
Definition buildDropCommand_Run (response : string) (elapsed : Z)
    (args : list string) : Cmd unit :=
  defer closeMigrator (
    _ ← setupMigrator;
    _ ← (if negb (forceDropPtr (drop_flag builder)) then
           _ ← emit (Println "Are you sure you want to drop the entire database schema? [y/N]");
           let response := strings_ToLower (strings_TrimSpace response) in
           if decide (response = "y")
           then Info "Dropping the entire database schema" []
           else Fatal "Aborted dropping the entire database schema" []
         else mret tt);
    err ← Migrator_Drop (migrator builder);
    _ ← match err with
        | Some err => Fatal (Error err) []
        | None => mret tt
        end;
    finished elapsed).

(** The [Run] function of [buildForceCommand].  [v] is a [uint64]; the
    comparison [v < -1] is the comparison of the two numbers. *)
Definition buildForceCommand_Run (elapsed : Z) (args : list string) : Cmd unit :=
  defer closeMigrator (
    _ ← setupMigrator;
    arg ← match args with
          | [] => Fatal "please specify version argument V" []
          | arg :: _ => mret arg
          end;
    v ← match strconv_ParseUint arg with
        | Err _ => Fatal "can't read version argument V" []
        | Ok v => mret v
        end;
    _ ← (if decide (v < -1) then Fatal "argument V must be >= -1" [] else mret tt);
    err ← Migrator_Force (migrator builder) (int_of_uint64 v);
    _ ← match err with
        | Some err => Fatal (Error err) []
        | None => mret tt
        end;
    finished elapsed).

End command.

(** ** A runtime to compute with: one flat directory, UTC time

    The file system is a finite map from a path to the content of the file
    there.  Paths are joined with a slash (the operands are taken to be
    clean), a pattern may use [*] and [?], which stand for bytes other than
    the slash, and [Glob] lists the paths in byte order, as [filepath.Glob]
    lists the names of one directory.  The clock counts nanoseconds since the
    epoch; the only zone is UTC; a layout other than the default one is taken
    to have no reference element and is its own text. *)

Fixpoint globMatch (fuel : nat) (pattern name : string) : bool :=
  match fuel with
  | O => false
  | S fuel' =>
      match pattern, name with
      | EmptyString, EmptyString => true
      | EmptyString, String _ _ => false
      | String p pattern', _ =>
          if decide (p = "*"%char) then
            globMatch fuel' pattern' name
            || match name with
               | String c name' =>
                   bool_decide (c ≠ "/"%char) && globMatch fuel' pattern name'
               | EmptyString => false
               end
          else
            match name with
            | String c name' =>
                (bool_decide (p = c)
                 || (bool_decide (p = "?"%char) && bool_decide (c ≠ "/"%char)))
                && globMatch fuel' pattern' name'
            | EmptyString => false
            end
      end
  end.

Definition flat_Match (pattern name : string) : bool :=
  globMatch (S (String.length pattern + String.length name)) pattern name.

Definition flat_Glob (fs : gmap string string) (pattern : string)
    : result (list string) :=
  Ok (filter (λ path, flat_Match pattern path = true)
        (merge_sort String.le (elements (dom fs)))).

Definition flat_Join (dir file : string) : string := dir +:+ "/" +:+ file.

(** The text after the last slash, read from the reversed path. *)
Fixpoint rev_base (s acc : string) : string :=
  match s with
  | EmptyString => acc
  | String c s' => if decide (c = "/"%char) then acc else rev_base s' (String c acc)
  end.

Definition flat_Base (path : string) : string :=
  match path with
  | EmptyString => "."
  | _ => rev_base (String.rev path) EmptyString
  end.

Definition pad2 (n : Z) : string :=
  repeat_byte "0" (Z.to_nat (2 - len (strconv_FormatUint n))) +:+ strconv_FormatUint n.

Definition pad4 (n : Z) : string :=
  repeat_byte "0" (Z.to_nat (4 - len (strconv_FormatUint n))) +:+ strconv_FormatUint n.

(** Year, month and day of a day count since 1970-01-01 (proleptic
    Gregorian calendar). *)
Definition civil_from_days (days : Z) : Z * Z * Z :=
  let z := days + 719468 in
  let era := z / 146097 in
  let doe := z - era * 146097 in
  let yoe := (doe - doe / 1460 + doe / 36524 - doe / 146096) / 365 in
  let doy := doe - (365 * yoe + yoe / 4 - yoe / 100) in
  let mp := (5 * doy + 2) / 153 in
  let d := doy - (153 * mp + 2) / 5 + 1 in
  let m := if decide (mp < 10) then mp + 3 else mp - 9 in
  let y := yoe + era * 400 + (if decide (m <= 2) then 1 else 0) in
  (y, m, d).

Definition utc_Format (nanos : Z) (layout : string) : string :=
  if decide (layout = defaultTimeFormat) then
    let secs := nanos / 1000000000 in
    let '(y, m, d) := civil_from_days (secs / 86400) in
    let sod := secs mod 86400 in
    pad4 y +:+ pad2 m +:+ pad2 d
      +:+ pad2 (sod / 3600) +:+ pad2 (sod mod 3600 / 60) +:+ pad2 (sod mod 60)
  else layout.

Definition DQ : string := String (ascii_of_N 34) EmptyString.

Definition flatRuntime : Runtime := {|
  FS := gmap string string;
  filepath_Join := flat_Join;
  filepath_Base := flat_Base;
  filepath_Glob := flat_Glob;
  os_WriteFile := λ fs name data, (<[name := data]> fs, None);
  Time := Z;
  Location := unit;
  time_Local := tt;
  time_LoadLocation := λ name,
    if decide (name = "UTC") then Ok tt
    else Err (errorsNew ("unknown time zone " +:+ name));
  time_In := λ t _, t;
  time_Format := utc_Format;
  time_Unix := λ t, t / 1000000000;
  time_UnixNano := λ t, t;
  strconv_Quote := λ s, DQ +:+ s +:+ DQ;
|}.

(** An engine in which every call succeeds, as
    [migrate.NewWithDatabaseInstance] leaves it: no [Log] is set. *)
Definition quietEngine : Migrate := {|
  Log := None;
  migrate_Up := None;
  migrate_Down := None;
  migrate_Steps := λ _, None;
  migrate_Drop := None;
  migrate_Force := λ _, None;
  migrate_Migrate := λ _, None;
  migrate_Close := (None, None);
|}.

(** The same engine with the answer [err] to [Drop]. *)
Definition dropAnswers (err : option error) : Migrate := {|
  Log := None;
  migrate_Up := None;
  migrate_Down := None;
  migrate_Steps := λ _, None;
  migrate_Drop := err;
  migrate_Force := λ _, None;
  migrate_Migrate := λ _, None;
  migrate_Close := (None, None);
|}.

(** An engine that is up to date: moving answers [ErrNoChange]. *)
Definition noChangeEngine : Migrate := {|
  Log := None;
  migrate_Up := Some ErrNoChange;
  migrate_Down := Some ErrNoChange;
  migrate_Steps := λ _, Some ErrNoChange;
  migrate_Drop := None;
  migrate_Force := λ _, None;
  migrate_Migrate := λ _, Some ErrNoChange;
  migrate_Close := (None, None);
|}.

Definition sampleResult : MigrateSQLResult := {|
  Empty := false;
  Up := [("users", ["CREATE TABLE users (id INT)"])];
  Down := [("users", ["DROP TABLE users"])];
|}.

Definition sampleMigrator (e : Migrate) (r : result MigrateSQLResult) : Migrator := {|
  migrate := e;
  migrationsFilePath := "migrations";
  migrateFunc := r;
  logger := defaultLogger;
|}.

Definition sampleBuilder (e : Migrate) : migratorCobraCommandBuilder := {|
  migrator := sampleMigrator e (Ok sampleResult);
  migrate_flag := {| verbosePtr := false; prefetchPtr := 10; lockTimeoutPtr := 15 |};
  create_flag := createFlag_default;
  down_flag := {| allPtr := false |};
  drop_flag := {| forceDropPtr := true |};
|}.

Definition emptyResult : MigrateSQLResult := {| Empty := true; Up := []; Down := [] |}.

(** Three states of the directory [migrations]. *)
Definition dirTwo : gmap string string :=
  <["migrations/000001_init.up.sql" := "--users"]>
    (<["migrations/000002_users.up.sql" := "--users"]> ∅).

Definition dirClash : gmap string string :=
  <["migrations/000002_a.up.sql" := "--a"]>
    (<["migrations/1_b.sql" := "--b"]> (<["migrations/notes.txt" := ""]> ∅)).

Definition dirMax : gmap string string :=
  <["migrations/18446744073709551615_last.up.sql" := "--last"]> ∅.

(** ** Decimal numerals, for the statements *)

Fixpoint all_digits (s : string) : bool :=
  match s with
  | EmptyString => true
  | String c s' => is_digit c && all_digits s'
  end.

(** The number a string of digits denotes, read from the left with the
    value [n] of what has been read. *)
Fixpoint dec_acc (s : string) (n : Z) : Z :=
  match s with
  | EmptyString => n
  | String c s' => dec_acc s' (10 * n + (byte_val c - 48))
  end.

Definition dec_value (s : string) : Z := dec_acc s 0.

(** [s] is a decimal numeral of [n]: one digit at least, digits only. *)
Definition decimal (s : string) (n : Z) : Prop :=
  s ≠ EmptyString ∧ all_digits s = true ∧ dec_value s = n.

(** [s] is the text of the integer [i] in base 10, with a minus sign in
    front of a negative one. *)
Definition int_text (s : string) (i : Z) : Prop :=
  if decide (i < 0) then ∃ d, s = String "-" d ∧ decimal d (- i)
  else decimal s i.

(** The run ended in [Fatal] with the text of [err]. *)
Definition fatal_with `{R : Runtime} (l : Logger) (err : error)
    (r : status unit * World) : Prop :=
  r.1 = Exited ∧ last (output r.2) = Some (LogFatal l (Error err) []).

(** The run returned, and the text of [err] was logged with [Info]. *)
Definition info_not_fatal `{R : Runtime} (l : Logger) (err : error)
    (r : status unit * World) : Prop :=
  r.1 = Next tt ∧ LogInfo l (Error err) [] ∈ output r.2.

(** What [setupMigrator], [closeMigrator] and the last statement of a
    handler add to the output. *)
Definition setupEvents (b : migratorCobraCommandBuilder) : list event :=
  (if verbosePtr (migrate_flag b) then [LogSetVerbose (logger (migrator b)) true] else [])
  ++ [SetPrefetchMigrations (prefetchPtr (migrate_flag b));
      SetLockTimeout (lockTimeoutPtr (migrate_flag b))].

Definition closeEvents (b : migratorCobraCommandBuilder) : list event :=
  Engine CallClose ::
  (let '(sourceErr, databaseErr) := migrate_Close (migrate (migrator b)) in
   if bool_decide (sourceErr ≠ None) || bool_decide (databaseErr ≠ None)
   then [LogError (logger (migrator b)) "encountered an error when close migrator"
           [VString "sourceErr"; value_of_error sourceErr;
            VString "databaseErr"; value_of_error databaseErr]]
   else []).

Definition finishedEvents (b : migratorCobraCommandBuilder) (elapsed : Z) : list event :=
  if verbosePtr (migrate_flag b)
  then [LogInfo (logger (migrator b)) ("Finished After " +:+ fmt_d elapsed +:+ " ms") []]
  else [].

(** The question of the [down] handler. *)
Definition downPrompt : string :=
  "Are you sure you want to apply all down migrations? [y/N]".

(** [f] is the last, in the order of the base names, of the paths [Glob]
    returned. *)
Definition lexLast `{R : Runtime} (f : string) (matches : list string) : Prop :=
  f ∈ matches ∧ ∀ g, g ∈ matches → (filepath_Base g ≤ filepath_Base f)%string.

(** The paths come in the order of their base names, as [filepath.Glob]
    lists the sorted names of a directory. *)
Definition baseSorted `{R : Runtime} (matches : list string) : Prop :=
  StronglySorted (λ a b, (filepath_Base a ≤ filepath_Base b)%string) matches.

(** The start of the process: nothing has happened yet. *)
Definition start `{R : Runtime} (fs : FS) : World := {| files := fs; output := [] |}.

(** ** More for the statements *)

(** The flat runtime on a directory that cannot be written: [os.WriteFile]
    fails at [open] and leaves the files as they are. *)
Definition readOnlyRuntime : Runtime := {|
  FS := gmap string string;
  filepath_Join := flat_Join;
  filepath_Base := flat_Base;
  filepath_Glob := flat_Glob;
  os_WriteFile := λ fs name data,
    (fs, Some (errorsNew ("open " +:+ name +:+ ": permission denied")));
  Time := Z;
  Location := unit;
  time_Local := tt;
  time_LoadLocation := λ name,
    if decide (name = "UTC") then Ok tt
    else Err (errorsNew ("unknown time zone " +:+ name));
  time_In := λ t _, t;
  time_Format := utc_Format;
  time_Unix := λ t, t / 1000000000;
  time_UnixNano := λ t, t;
  strconv_Quote := λ s, DQ +:+ s +:+ DQ;
|}.

(** An argument that is not the decimal numeral of an unsigned 64-bit
    number. *)
Definition refused (arg : string) : Prop := ¬ ∃ n, decimal arg n ∧ n <= maxUint64.

(** The answer to a question [[y/N]] that counts as yes: what is left of
    the line after [strings.TrimSpace] and [strings.ToLower] is [y]. *)
Definition confirmed (response : string) : Prop :=
  strings_ToLower (strings_TrimSpace response) = "y".

(** The run ended in [Fatal] with the text [msg] before the engine was
    called: the files are those of [fs]. *)
Definition refused_with `{R : Runtime} (l : Logger) (msg : string) (fs : FS)
    (r : status unit * World) : Prop :=
  r.1 = Exited ∧ files r.2 = fs ∧ (∀ c, Engine c ∉ output r.2)
  ∧ ∃ keyAndValues, last (output r.2) = Some (LogFatal l msg keyAndValues).

(** * Properties *)

(** ** Strings and numerals *)

Lemma app_String (c : ascii) (s t : string) : String c s +:+ t = String c (s +:+ t).
Proof. reflexivity. Qed.

Lemma app_empty_l (t : string) : EmptyString +:+ t = t.
Proof. reflexivity. Qed.

Lemma len_String (c : ascii) (s : string) : len (String c s) = 1 + len s.
Proof. unfold len. simpl. lia. Qed.

Lemma len_app (s t : string) : len (s +:+ t) = len s + len t.
Proof.
  induction s as [|c s IH]; [rewrite app_empty_l; unfold len; simpl; lia|].
  rewrite app_String, !len_String. lia.
Qed.

Lemma len_nonneg (s : string) : 0 <= len s.
Proof. unfold len. lia. Qed.

Lemma len_repeat_byte (c : ascii) (n : nat) : len (repeat_byte c n) = Z.of_nat n.
Proof. unfold len. induction n; simpl; lia. Qed.

Lemma is_digit_range (c : ascii) :
  is_digit c = true ↔ 0 <= byte_val c - 48 <= 9.
Proof. unfold is_digit. rewrite andb_true_iff, !Z.leb_le. lia. Qed.

Lemma is_digit_not_underscore (c : ascii) : is_digit c = true → c ≠ "_"%char.
Proof. intros H ->. vm_compute in H. discriminate. Qed.

Lemma all_digits_app (s t : string) :
  all_digits (s +:+ t) = all_digits s && all_digits t.
Proof.
  induction s as [|c s IH]; [done|].
  rewrite app_String. simpl. rewrite IH. by rewrite andb_assoc.
Qed.

Lemma dec_acc_app (s t : string) (n : Z) :
  dec_acc (s +:+ t) n = dec_acc t (dec_acc s n).
Proof.
  revert n. induction s as [|c s IH]; intros n; [done|].
  rewrite app_String. simpl. apply IH.
Qed.

Lemma dec_acc_ge (s : string) (n : Z) :
  all_digits s = true → 0 <= n → n <= dec_acc s n.
Proof.
  revert n. induction s as [|c s IH]; intros n Hd Hn; simpl in *; [lia|].
  apply andb_true_iff in Hd as [Hc Hs]. apply is_digit_range in Hc.
  etrans; [|apply IH; [done|lia]]. lia.
Qed.

Lemma dec_acc_pow (s : string) (n : Z) :
  dec_acc s n = n * 10 ^ len s + dec_value s.
Proof.
  unfold dec_value. revert n. induction s as [|c s IH]; intros n.
  - simpl. change (len "") with 0. lia.
  - simpl. rewrite (IH (10 * n + _)), (IH (10 * 0 + _)), len_String.
    rewrite Z.pow_add_r, Z.pow_1_r by (pose proof (len_nonneg s); lia). lia.
Qed.

Lemma all_digits_repeat_zero (n : nat) : all_digits (repeat_byte "0" n) = true.
Proof. induction n; [done|]. simpl. by rewrite IHn. Qed.

Lemma dec_acc_repeat_zero (n : nat) : dec_acc (repeat_byte "0" n) 0 = 0.
Proof. induction n; [done|]. simpl. exact IHn. Qed.

(** Leading zeros do not change the number. *)
Lemma dec_value_zeros (n : nat) (s : string) :
  dec_value (repeat_byte "0" n +:+ s) = dec_value s.
Proof. unfold dec_value. by rewrite dec_acc_app, dec_acc_repeat_zero. Qed.

(** *** The library functions on small inputs *)

Example ParseUint_leading_zeros : strconv_ParseUint "007" = Ok 7.
Proof. reflexivity. Qed.

Example ParseUint_maxUint64 : strconv_ParseUint "18446744073709551615" = Ok maxUint64.
Proof. vm_compute. reflexivity. Qed.

Example ParseUint_out_of_range :
  strconv_ParseUint "18446744073709551616"
  = Err (NumError "ParseUint" "18446744073709551616" ErrRange).
Proof. vm_compute. reflexivity. Qed.

Example ParseUint_sign : strconv_ParseUint "-1" = Err (NumError "ParseUint" "-1" ErrSyntax).
Proof. vm_compute. reflexivity. Qed.

Example ParseUint_underscore :
  strconv_ParseUint "1_000" = Err (NumError "ParseUint" "1_000" ErrSyntax).
Proof. vm_compute. reflexivity. Qed.

Example ParseUint_empty : strconv_ParseUint "" = Err (NumError "ParseUint" "" ErrSyntax).
Proof. reflexivity. Qed.

Example FormatUint_zero : strconv_FormatUint 0 = "0".
Proof. vm_compute. reflexivity. Qed.

Example FormatUint_maxUint64 : strconv_FormatUint maxUint64 = "18446744073709551615".
Proof. vm_compute. reflexivity. Qed.

Example FormatInt_negative : strconv_FormatInt (-120) = "-120".
Proof. vm_compute. reflexivity. Qed.

Example Sprintf_seq_pads : Sprintf_seq 42 6 = "000042".
Proof. vm_compute. reflexivity. Qed.

Example Sprintf_seq_does_not_cut : Sprintf_seq 1234567 6 = "1234567".
Proof. vm_compute. reflexivity. Qed.

Example Index_first : strings_Index "0001_ab_c.sql" "_" = 4.
Proof. vm_compute. reflexivity. Qed.

Example Index_absent : strings_Index "0001.sql" "_" = -1.
Proof. vm_compute. reflexivity. Qed.

Example TrimPrefix_one_dot : strings_TrimPrefix "..sql" "." = ".sql".
Proof. vm_compute. reflexivity. Qed.

Example int_of_uint64_top : int_of_uint64 18446744073709551615 = -1.
Proof. reflexivity. Qed.

(** *** [strconv.ParseUint] accepts the decimal numerals up to [maxUint64] *)

Lemma ParseUint_loop_ok (s0 s : string) (n : Z) :
  all_digits s = true → 0 <= n → dec_acc s n <= maxUint64 →
  ParseUint_loop s0 s n = Ok (dec_acc s n).
Proof.
  revert n. induction s as [|c s IH]; intros n Hd Hn Hmax; [done|].
  simpl in *. apply andb_true_iff in Hd as [Hc Hs]. rewrite Hc.
  apply is_digit_range in Hc.
  assert (10 * n + (byte_val c - 48) <= maxUint64) as Hstep.
  { etrans; [apply dec_acc_ge; [done|lia]|done]. }
  unfold maxUint64 in *.
  case_decide as Hcut; [change (2 ^ 64 - 1) with 18446744073709551615 in *;
    change (18446744073709551615 / 10) with 1844674407370955161 in Hcut; lia|].
  unfold wrap_uint64. rewrite Z.mod_small by lia.
  case_decide as Hov; [lia|].
  replace (n * 10 + (byte_val c - 48)) with (10 * n + (byte_val c - 48)) by lia.
  apply IH; [done|lia|done].
Qed.

Lemma ParseUint_loop_inv (s0 s : string) (n v : Z) :
  0 <= n <= maxUint64 → ParseUint_loop s0 s n = Ok v →
  all_digits s = true ∧ v = dec_acc s n ∧ 0 <= v <= maxUint64.
Proof.
  revert n. induction s as [|c s IH]; intros n Hn H; simpl in *.
  - injection H as <-. done.
  - destruct (is_digit c) eqn:Hc; [|done].
    apply is_digit_range in Hc.
    unfold maxUint64 in *. change (2 ^ 64 - 1) with 18446744073709551615 in *.
    change (18446744073709551615 / 10) with 1844674407370955161 in H.
    case_decide as Hcut; [done|].
    case_decide as Hov; [done|].
    assert (wrap_uint64 (n * 10 + (byte_val c - 48)) = 10 * n + (byte_val c - 48)) as Hw.
    { unfold wrap_uint64 in *.
      destruct (decide (n * 10 + (byte_val c - 48) < 2 ^ 64)) as [Hlt|Hge].
      - rewrite Z.mod_small by lia. lia.
      - exfalso. apply Hov. left.
        replace (n * 10 + (byte_val c - 48))
          with ((n * 10 + (byte_val c - 48) - 2 ^ 64) + 1 * 2 ^ 64) by lia.
        rewrite Z.mod_add by lia. rewrite Z.mod_small by lia. lia. }
    rewrite Hw in H, Hov. apply IH in H; [|lia]. naive_solver.
Qed.

(** [strconv.ParseUint(s, 10, 64)] succeeds with [v] exactly when [s] is a
    decimal numeral of [v] and [v] fits 64 bits. *)
Lemma ParseUint_Ok (s : string) (v : Z) :
  strconv_ParseUint s = Ok v ↔ decimal s v ∧ v <= maxUint64.
Proof.
  unfold decimal, dec_value. split.
  - destruct s as [|c s]; [done|]. intros H.
    apply ParseUint_loop_inv in H as (Hd & -> & Hr); [|unfold maxUint64; lia].
    split; [done|lia].
  - intros [(Hne & Hd & <-) Hmax]. destruct s as [|c s]; [done|].
    by apply ParseUint_loop_ok.
Qed.

Lemma ParseUint_range (s : string) (v : Z) :
  strconv_ParseUint s = Ok v → 0 <= v <= maxUint64.
Proof.
  destruct s as [|c s]; [done|]. intros H.
  by apply ParseUint_loop_inv in H as (_ & _ & Hr); [|unfold maxUint64; lia].
Qed.

(** *** [strconv.FormatUint] writes the decimal numeral without leading zeros *)

Lemma digit_char_val (d : Z) : 0 <= d <= 9 → byte_val (digit_char d) - 48 = d.
Proof.
  intros Hd. unfold byte_val, digit_char.
  rewrite N_ascii_embedding; [lia|]. lia.
Qed.

Lemma digit_char_is_digit (d : Z) : 0 <= d <= 9 → is_digit (digit_char d) = true.
Proof. intros Hd. apply is_digit_range. rewrite digit_char_val; lia. Qed.

Lemma formatBits_spec (fuel : nat) (u : Z) (acc : string) :
  0 <= u < 2 ^ Z.of_nat (S fuel) →
  ∃ ds, formatBits (S fuel) u acc = ds +:+ acc
        ∧ all_digits ds = true ∧ dec_value ds = u
        ∧ 1 <= len ds ∧ u < 10 ^ len ds ∧ (u ≠ 0 → 10 ^ (len ds - 1) <= u).
Proof.
  revert u acc. induction fuel as [|fuel IH]; intros u acc Hu.
  - assert (u = 0 ∨ u = 1) as [-> | ->] by (change (2 ^ Z.of_nat 1) with 2 in Hu; lia).
    + exists "0". by vm_compute.
    + exists "1". by vm_compute.
  - assert (0 <= u mod 10 <= 9) as Hd by (pose proof (Z.mod_pos_bound u 10); lia).
    change (formatBits (S (S fuel)) u acc) with
      (if decide (u / 10 = 0) then String (digit_char (u mod 10)) acc
       else formatBits (S fuel) (u / 10) (String (digit_char (u mod 10)) acc)).
    case_decide as Hq.
    + exists (String (digit_char (u mod 10)) "").
      assert (u = u mod 10) as Hsmall by (pose proof (Z.div_mod u 10); lia).
      split; [done|]. split; [simpl; by rewrite digit_char_is_digit|].
      split; [unfold dec_value; simpl; rewrite digit_char_val; lia|].
      change (len _) with 1. simpl. lia.
    + destruct (IH (u / 10) (String (digit_char (u mod 10)) acc)) as (ds & Hf & Hds & Hv & Hl & Hub & Hlb).
      { split; [apply Z.div_pos; lia|].
        rewrite Nat2Z.inj_succ, Z.pow_succ_r in Hu by lia.
        apply Z.div_lt_upper_bound; lia. }
      exists (ds +:+ String (digit_char (u mod 10)) "").
      rewrite Hf. split.
      { clear. induction ds as [|c ds IHd]; [done|]. rewrite !app_String. by f_equal. }
      split; [rewrite all_digits_app, Hds; simpl; by rewrite digit_char_is_digit|].
      split.
      { unfold dec_value in *. rewrite dec_acc_app, Hv. simpl.
        rewrite digit_char_val by done. pose proof (Z.div_mod u 10). lia. }
      rewrite len_app. change (len (String _ "")) with 1.
      replace (len ds + 1 - 1) with (len ds) by lia.
      rewrite Z.pow_add_r, Z.pow_1_r by lia.
      pose proof (Z.div_mod u 10 ltac:(lia)) as Hdm.
      split; [lia|]. split; [lia|]. intros _.
      specialize (Hlb Hq).
      replace (len ds) with (len ds - 1 + 1) by lia.
      rewrite Z.pow_add_r, Z.pow_1_r by lia. lia.
Qed.

(** For [0 <= u], [strconv.FormatUint(u, 10)] is a decimal numeral of [u]
    whose length is the number of digits of [u]. *)
Lemma FormatUint_spec (u : Z) :
  0 <= u →
  decimal (strconv_FormatUint u) u
  ∧ 1 <= len (strconv_FormatUint u)
  ∧ u < 10 ^ len (strconv_FormatUint u)
  ∧ (u ≠ 0 → 10 ^ (len (strconv_FormatUint u) - 1) <= u).
Proof.
  intros Hu. unfold strconv_FormatUint.
  destruct (formatBits_spec (Z.to_nat (Z.log2 u)) u "") as (ds & Hf & Hds & Hv & Hl & Hb).
  { split; [done|]. rewrite Nat2Z.inj_succ, Z2Nat.id by apply Z.log2_nonneg.
    destruct (decide (u = 0)) as [->|]; [done|].
    apply Z.log2_spec. lia. }
  assert (ds +:+ "" = ds) as Happ.
  { clear. induction ds as [|c ds IH]; [done|]. rewrite app_String. by f_equal. }
  rewrite Hf, Happ. split; [|done].
  split; [|done]. intros ->. change (len "") with 0 in Hl. lia.
Qed.

(** The width test of [nextSeqVersion], in numbers. *)
Lemma FormatUint_len_le (u W : Z) :
  0 <= u → 1 <= W → (len (strconv_FormatUint u) <= W ↔ u < 10 ^ W).
Proof.
  intros Hu HW. destruct (FormatUint_spec u Hu) as (_ & Hl & Hub & Hlb).
  split.
  - intros Hle. eapply Z.lt_le_trans; [exact Hub|].
    apply Z.pow_le_mono_r; lia.
  - intros Hlt. destruct (decide (u = 0)) as [->|Hne].
    + change (len (strconv_FormatUint 0)) with 1. lia.
    + destruct (decide (len (strconv_FormatUint u) <= W)) as [|Hgt]; [done|].
      exfalso. specialize (Hlb Hne).
      assert (10 ^ W <= 10 ^ (len (strconv_FormatUint u) - 1)) by (apply Z.pow_le_mono_r; lia).
      lia.
Qed.

(** *** The padded text of a sequence number *)

(** For a width between 1 and a million, the text is the numeral padded
    with zeros up to the width, or the numeral itself when it is longer. *)
Lemma Sprintf_seq_pad (n W : Z) :
  0 <= n → 1 <= W <= 1000000 →
  Sprintf_seq n W
  = repeat_byte "0" (Z.to_nat (W - len (strconv_FormatUint n))) +:+ strconv_FormatUint n.
Proof.
  intros Hn HW. unfold Sprintf_seq, tooLarge.
  replace (1000000 <? W) with false by (symmetry; apply Z.ltb_ge; lia).
  replace (W <? -1000000) with false by (symmetry; apply Z.ltb_ge; lia).
  simpl. case_decide; [lia|done].
Qed.

Lemma Sprintf_seq_fits (n W : Z) :
  0 <= n → 1 <= W <= 1000000 → n < 10 ^ W →
  len (Sprintf_seq n W) = W ∧ decimal (Sprintf_seq n W) n.
Proof.
  intros Hn HW Hfit. rewrite Sprintf_seq_pad by done.
  destruct (FormatUint_spec n Hn) as ((Hne & Hd & Hv) & Hl & _).
  apply FormatUint_len_le in Hfit; [|done|lia].
  split; [rewrite len_app, len_repeat_byte; lia|].
  split; [|split].
  - intros Hempty. apply (f_equal len) in Hempty.
    rewrite len_app, len_repeat_byte in Hempty. change (len "") with 0 in Hempty. lia.
  - by rewrite all_digits_app, all_digits_repeat_zero, Hd.
  - by rewrite dec_value_zeros.
Qed.

Lemma Sprintf_seq_too_long (n W : Z) :
  0 <= n → 1 <= W <= 1000000 → 10 ^ W <= n → W < len (Sprintf_seq n W).
Proof.
  intros Hn HW Hbig. rewrite Sprintf_seq_pad by done.
  rewrite len_app, len_repeat_byte.
  assert (¬ len (strconv_FormatUint n) <= W) by (rewrite FormatUint_len_le by lia; lia).
  lia.
Qed.

(** What [nextSeqVersion] writes, [strconv.ParseUint] reads back. *)
Lemma ParseUint_Sprintf_seq (n W : Z) :
  0 <= n <= maxUint64 → 1 <= W <= 1000000 → n < 10 ^ W →
  strconv_ParseUint (Sprintf_seq n W) = Ok n.
Proof.
  intros Hn HW Hfit. apply ParseUint_Ok. split; [|lia].
  apply Sprintf_seq_fits; lia.
Qed.

(** *** The prefix before the first underscore *)

Lemma prefix_byte (a b : ascii) (s : string) :
  String.prefix (String a "") (String b s) = bool_decide (a = b).
Proof.
  cbn [String.prefix]. destruct (ascii_dec a b); case_bool_decide; try done.
  by destruct s.
Qed.

Lemma index_byte_cons (a b : ascii) (s : string) :
  String.index 0 (String a "") (String b s)
  = if bool_decide (a = b) then Some 0%nat
    else S <$> String.index 0 (String a "") s.
Proof.
  cbn [String.index]. rewrite prefix_byte.
  case_bool_decide; [done|]. by destruct (String.index 0 (String a "") s).
Qed.

Lemma index_underscore (p rest : string) :
  all_digits p = true →
  strings_Index (p +:+ "_" +:+ rest) "_" = len p.
Proof.
  intros Hp. unfold strings_Index.
  assert (String.index 0 "_" (p +:+ "_" +:+ rest) = Some (String.length p)) as ->; [|done].
  induction p as [|c p IH].
  - rewrite app_empty_l, app_String, index_byte_cons. by rewrite bool_decide_eq_true_2.
  - simpl in Hp. apply andb_true_iff in Hp as [Hc Hp].
    apply is_digit_not_underscore in Hc.
    rewrite app_String, index_byte_cons, bool_decide_eq_false_2 by done.
    by rewrite IH.
Qed.

Lemma slice_prefix (p t : string) : slice (p +:+ t) 0 (len p) = p.
Proof.
  unfold slice, len. rewrite Z.sub_0_r, Nat2Z.id. change (Z.to_nat 0) with 0%nat.
  induction p as [|c p IH]; [by destruct t|].
  rewrite app_String. simpl. by rewrite IH.
Qed.

(** A string splits at the first instance of a byte. *)
Lemma index_split (c : ascii) (s : string) (i : nat) :
  String.index 0 (String c "") s = Some i →
  ∃ rest, s = String.substring 0 i s +:+ String c rest.
Proof.
  revert i. induction s as [|b s IH]; intros i H; [done|].
  rewrite index_byte_cons in H. case_bool_decide as Hcb.
  - injection H as <-. subst b. by eexists.
  - destruct (String.index 0 (String c "") s) as [j|] eqn:Hj; [|done].
    injection H as <-. destruct (IH j eq_refl) as [rest Hrest].
    exists rest. simpl. rewrite app_String. by f_equal.
Qed.

(** ** nextSeqVersion *)

Section nextSeqVersion_facts.
Context `{R : Runtime}.

Lemma bind_Ok {A B} (a : A) (f : A → result B) : (Ok a ≫= f) = f a.
Proof. reflexivity. Qed.

Lemma bind_Err {A B} (e : error) (f : A → result B) : (Err e ≫= f) = Err e.
Proof. reflexivity. Qed.

(** In a list sorted by base name, the last path has the greatest base
    name. *)
Lemma last_lexLast (f : string) (matches : list string) :
  baseSorted matches → lexLast f matches →
  ∃ l, last matches = Some l ∧ filepath_Base l = filepath_Base f.
Proof.
  intros Hsorted [Hin Hmax].
  destruct (last matches) as [l|] eqn:Hlast.
  2: { apply last_None in Hlast. subst. by apply elem_of_nil in Hin. }
  exists l. split; [done|].
  pose proof (last_Some_elem_of _ _ Hlast) as Hl.
  apply last_Some in Hlast as [pre ->].
  apply (anti_symm String.le); [by apply Hmax|].
  apply elem_of_app in Hin as [Hpre|Hf].
  - apply (StronglySorted_app_1_elem_of _ _ _ _ _ Hsorted Hpre). by apply list_elem_of_singleton.
  - apply list_elem_of_singleton in Hf as ->. done.
Qed.

(** The step of [nextSeqVersion] after the directory has been read. *)
Lemma nextSeqVersion_last (fs : FS) (dir ext : string) (W : Z)
    (matches : list string) (l p rest : string) (V : Z) :
  filepath_Glob fs (filepath_Join dir ("*" +:+ ext)) = Ok matches →
  1 <= W → last matches = Some l →
  filepath_Base l = p +:+ "_" +:+ rest → decimal p V → V <= maxUint64 →
  nextSeqVersion fs dir ext W
  = let version := Sprintf_seq (wrap_uint64 (V + 1)) W in
    if decide (W < len version) then Err (errSeqTooLarge version W) else Ok version.
Proof.
  intros Hglob HW Hlast Hbase Hdec Hmax. unfold nextSeqVersion.
  rewrite Hglob, bind_Ok. case_decide; [lia|].
  rewrite Hlast, Hbase. destruct Hdec as (Hne & Hd & Hv).
  rewrite index_underscore by done.
  assert (1 <= len p).
  { destruct p; [done|]. rewrite len_String. pose proof (len_nonneg p). lia. }
  case_decide; [lia|]. rewrite slice_prefix.
  assert (strconv_ParseUint p = Ok V) as -> by (by apply ParseUint_Ok).
  by rewrite !bind_Ok.
Qed.

Lemma decimal_nonneg (s : string) (n : Z) : decimal s n → 0 <= n.
Proof. intros (_ & Hd & <-). by apply (dec_acc_ge s 0). Qed.

(** C3, as amended.  A width of zero or less is an error.  For a width [W]
    of one at least, when [Glob] answers with paths sorted by base name:
    with no path, and [W] up to a million, the version is the numeral of 1
    on [W] digits; when the base name of the last path is a decimal numeral
    of [V] followed by an underscore, [V + 1 < 2^64] and [W] is up to a
    million, the version is the numeral of [V + 1] on [W] digits if
    [V + 1] has at most [W] digits, and an error otherwise; when the base
    name of the last path does not start with a decimal numeral of a 64-bit
    number followed by an underscore, the result is an error. *)
Theorem nextSeqVersion_spec (fs : FS) (dir ext : string) (W : Z) :
  (W <= 0 → is_Err (nextSeqVersion fs dir ext W))
  ∧ ∀ matches,
      filepath_Glob fs (filepath_Join dir ("*" +:+ ext)) = Ok matches →
      baseSorted matches → 1 <= W →
      (W <= 1000000 → matches = [] →
         ∃ version, nextSeqVersion fs dir ext W = Ok version
                    ∧ len version = W ∧ decimal version 1)
      ∧ (W <= 1000000 → ∀ f p rest V,
           lexLast f matches → filepath_Base f = p +:+ "_" +:+ rest →
           decimal p V → V + 1 < 2 ^ 64 →
           (V + 1 < 10 ^ W →
              ∃ version, nextSeqVersion fs dir ext W = Ok version
                         ∧ len version = W ∧ decimal version (V + 1))
           ∧ (10 ^ W <= V + 1 → is_Err (nextSeqVersion fs dir ext W)))
      ∧ (∀ f, lexLast f matches →
           (¬ ∃ p rest V, filepath_Base f = p +:+ "_" +:+ rest
                          ∧ decimal p V ∧ V <= maxUint64) →
           is_Err (nextSeqVersion fs dir ext W)).
Proof.
  split.
  { intros HW. unfold nextSeqVersion.
    destruct (filepath_Glob _ _) as [matches|e]; [|done].
    rewrite bind_Ok. by case_decide; [|lia]. }
  intros matches Hglob Hsorted HW. split; [|split].
  - intros HW' ->. unfold nextSeqVersion. rewrite Hglob, bind_Ok.
    case_decide; [lia|]. rewrite last_nil, bind_Ok. cbv zeta.
    destruct (Sprintf_seq_fits 1 W) as [Hlen Hdec]; [lia|lia| |].
    { apply Z.lt_le_trans with (10 ^ 1); [done|]. apply Z.pow_le_mono_r; lia. }
    rewrite Hlen. case_decide; [lia|]. by eexists.
  - intros HW' f p rest V Hf Hbase Hdec HV.
    destruct (last_lexLast f matches Hsorted Hf) as (l & Hlast & Hl).
    pose proof (decimal_nonneg _ _ Hdec) as HV0.
    rewrite (nextSeqVersion_last fs dir ext W matches l p rest V Hglob HW Hlast);
      [|congruence|done|unfold maxUint64; lia].
    unfold wrap_uint64. rewrite Z.mod_small by lia. cbv zeta. split.
    + intros Hfit. destruct (Sprintf_seq_fits (V + 1) W) as [Hlen Hd]; [lia|lia|done|].
      rewrite Hlen. case_decide; [lia|]. by eexists.
    + intros Hbig. pose proof (Sprintf_seq_too_long (V + 1) W) as Hlong.
      case_decide; [done|lia].
  - intros f Hf Hnot.
    destruct (last_lexLast f matches Hsorted Hf) as (l & Hlast & Hl).
    unfold nextSeqVersion. rewrite Hglob, bind_Ok. case_decide; [lia|].
    rewrite Hlast, Hl. case_decide as Hidx; [done|].
    unfold strings_Index in *.
    destruct (String.index 0 "_" (filepath_Base f)) as [i|] eqn:Hi; [|lia].
    destruct (index_split _ _ _ Hi) as [rest Hsplit].
    unfold slice. rewrite Z.sub_0_r, Nat2Z.id. change (Z.to_nat 0) with 0%nat.
    destruct (strconv_ParseUint _) as [v|e] eqn:Hparse; [|done].
    exfalso. apply Hnot. apply ParseUint_Ok in Hparse as [Hdec Hmax].
    by exists (String.substring 0 i (filepath_Base f)), rest, v.
Qed.

End nextSeqVersion_facts.

(** The amended C3 at work: after [000001_...] and [000002_...], six digits
    wide, the next version is [000003]. *)
Lemma nextSeqVersion_spec_witness :
  ∃ version, nextSeqVersion (R := flatRuntime) dirTwo "migrations" ".sql" 6 = Ok version
             ∧ len version = 6 ∧ decimal version (2 + 1).
Proof.
  pose proof (nextSeqVersion_spec (R := flatRuntime) dirTwo "migrations" ".sql" 6)
    as [_ Hspec].
  assert (filepath_Glob (Runtime := flatRuntime) dirTwo
            (filepath_Join (Runtime := flatRuntime) "migrations" ("*" +:+ ".sql"))
          = Ok ["migrations/000001_init.up.sql"; "migrations/000002_users.up.sql"])
    as Hglob by (vm_compute; reflexivity).
  assert (baseSorted (R := flatRuntime)
            ["migrations/000001_init.up.sql"; "migrations/000002_users.up.sql"])
    as Hsorted by (repeat constructor; vm_compute; exact I).
  destruct (Hspec _ Hglob Hsorted ltac:(lia)) as (_ & Hlast & _).
  assert (lexLast (R := flatRuntime) "migrations/000002_users.up.sql"
            ["migrations/000001_init.up.sql"; "migrations/000002_users.up.sql"])
    as Hf.
  { split; [apply list_elem_of_In; simpl; tauto|].
    intros g Hg. apply list_elem_of_In in Hg. simpl in Hg.
    destruct Hg as [<-|[<-|[]]]; vm_compute; exact I. }
  assert (decimal "000002" 2) as Hdec
    by (split; [discriminate|split; vm_compute; reflexivity]).
  destruct (Hlast ltac:(lia) _ "000002" "users.up.sql" 2 Hf
              ltac:(vm_compute; reflexivity) Hdec ltac:(lia)) as [Hfit _].
  exact (Hfit ltac:(vm_compute; reflexivity)).
Defined.

(** C3 as stated fails where the counter wraps: after version
    [18446744073709551615], twenty digits wide, the claim promises the
    numeral of [18446744073709551616] and the code returns twenty zeros. *)
Lemma nextSeqVersion_wraps_at_maxUint64 :
  filepath_Base (Runtime := flatRuntime) "migrations/18446744073709551615_last.up.sql"
    = "18446744073709551615" +:+ "_" +:+ "last.up.sql"
  ∧ nextSeqVersion (R := flatRuntime) dirMax "migrations" ".sql" 20
    = Ok "00000000000000000000"
  ∧ ¬ ∃ version, nextSeqVersion (R := flatRuntime) dirMax "migrations" ".sql" 20 = Ok version
                 ∧ decimal version (18446744073709551615 + 1).
Proof.
  assert (nextSeqVersion (R := flatRuntime) dirMax "migrations" ".sql" 20
          = Ok "00000000000000000000") as Hrun by (vm_compute; reflexivity).
  split; [vm_compute; reflexivity|]. split; [done|].
  intros (version & Hv & _ & _ & Hval). rewrite Hrun in Hv. injection Hv as <-.
  vm_compute in Hval. discriminate.
Qed.

(** ** upAndDownFilePath and MakeMigrate *)

Section MakeMigrate_facts.
Context `{R : Runtime}.

(** Whatever the arguments, the second path is the first one. *)
Lemma upAndDownFilePath_same_path (m : Migrator) (fs : FS) (clock : Time)
    (timeZoneName format name ext : string) (seq : bool) (seqDigits : Z) :
  match upAndDownFilePath m fs clock timeZoneName format name ext seq seqDigits with
  | Ok (up, down) => down = up
  | Err _ => True
  end.
Proof.
  unfold upAndDownFilePath. destruct (seq && _); [done|].
  destruct (if seq then _ else _) as [version|e]; [|done]. rewrite bind_Ok.
  destruct (filepath_Glob _ _) as [matches|e]; [|done]. rewrite bind_Ok.
  by case_decide.
Qed.

(** C2: the code refuses the sequential mode when no format is given.  With
    [seq] set, [upAndDownFilePath] returns the error of the exclusive options
    for the empty format, as for every format other than the text of the
    default layout, whatever the directory holds: [nextSeqVersion] is not
    reached.  Only with that text as the format is the version of
    [nextSeqVersion] used. *)
Theorem upAndDownFilePath_seq_guard (m : Migrator) (fs : FS) (clock : Time)
    (timeZoneName name ext : string) (seqDigits : Z) :
  upAndDownFilePath m fs clock timeZoneName "" name ext true seqDigits
  = Err errIncompatibleSeqAndFormat
  ∧ (∀ format, format ≠ defaultTimeFormat →
       upAndDownFilePath m fs clock timeZoneName format name ext true seqDigits
       = Err errIncompatibleSeqAndFormat)
  ∧ (∀ version,
       nextSeqVersion fs (migrationsFilePath m) (dotExt ext) seqDigits = Ok version →
       filepath_Glob fs
         (filepath_Join (migrationsFilePath m) (version +:+ "_*" +:+ dotExt ext))
       = Ok [] →
       upAndDownFilePath m fs clock timeZoneName defaultTimeFormat name ext true seqDigits
       = Ok (filepath_Join (migrationsFilePath m)
               (version +:+ "_" +:+ name +:+ "." +:+ "up" +:+ dotExt ext),
             filepath_Join (migrationsFilePath m)
               (version +:+ "_" +:+ name +:+ "." +:+ "up" +:+ dotExt ext))).
Proof.
  split; [done|]. split.
  - intros format Hne. unfold upAndDownFilePath. by rewrite bool_decide_eq_true_2.
  - intros version Hversion Hglob. unfold upAndDownFilePath.
    rewrite bool_decide_eq_false_2 by (by intros []).
    cbn [andb]. by rewrite Hversion, bind_Ok, Hglob, bind_Ok.
Qed.

(** C4: when the migrate function gives a result that is not empty, the
    version is computed, and [Glob] finds a path for [<version>_*<ext>],
    [MakeMigrate] returns the error of the duplicate version and the world is
    the one it started in: no file is written, nothing is logged. *)
Theorem MakeMigrate_duplicate_version (m : Migrator) (w : World) (clock : Time)
    (timeZoneName format name ext : string) (seq : bool) (seqDigits : Z)
    (migrateResult : MigrateSQLResult) (version : string) (matches : list string) :
  migrateFunc m = Ok migrateResult →
  Empty migrateResult = false →
  (seq = true → format = defaultTimeFormat) →
  (if seq then nextSeqVersion (files w) (migrationsFilePath m) (dotExt ext) seqDigits
   else timeVersion clock timeZoneName format) = Ok version →
  filepath_Glob (files w)
    (filepath_Join (migrationsFilePath m) (version +:+ "_*" +:+ dotExt ext))
  = Ok matches →
  matches ≠ [] →
  MakeMigrate m clock timeZoneName format name ext seq seqDigits w
  = (Next (Some (errDuplicateVersion version)), w).
Proof.
  intros Hfunc Hempty Hseq Hversion Hglob Hmatches.
  unfold MakeMigrate. rewrite Hfunc, Hempty.
  unfold mbind at 1, Cmd_bind, readFS. cbn [fst snd].
  unfold upAndDownFilePath.
  assert (seq && bool_decide (format ≠ defaultTimeFormat) = false) as ->.
  { destruct seq; [|done]. rewrite bool_decide_eq_false_2; [done|]. intros Hne. by apply Hne, Hseq. }
  rewrite Hversion, bind_Ok, Hglob, bind_Ok.
  case_decide as Hlen; [done|]. destruct matches; [done|]. simpl in Hlen. lia.
Qed.

(** C5: what [MakeMigrate] does with an empty result depends on the [Log]
    field of the engine.  When a logger is there, its [Printf] is called
    with the text [no change], nil is returned and no file is touched; when
    the field is nil, as after [New] alone, the call panics. *)
Theorem MakeMigrate_empty_result (m : Migrator) (w : World) (clock : Time)
    (timeZoneName format name ext : string) (seq : bool) (seqDigits : Z)
    (migrateResult : MigrateSQLResult) :
  migrateFunc m = Ok migrateResult →
  Empty migrateResult = true →
  MakeMigrate m clock timeZoneName format name ext seq seqDigits w
  = match Log (migrate m) with
    | Some l => (Next None,
                 {| files := files w;
                    output := output w ++ [LogPrintf l "no change" []] |})
    | None => (Panicked, w)
    end.
Proof.
  intros Hfunc Hempty. unfold MakeMigrate. rewrite Hfunc, Hempty.
  by destruct (Log (migrate m)).
Qed.

(** C10: the empty extension stands for [.sql], and an extension without a
    leading dot gives the paths (or the error) of the same extension with
    one dot in front. *)
Theorem upAndDownFilePath_leading_dot (m : Migrator) (fs : FS) (clock : Time)
    (timeZoneName format name : string) (seq : bool) (seqDigits : Z) :
  dotExt "" = ".sql"
  ∧ ∀ e : string, e ≠ "" → String.prefix "." e = false →
      upAndDownFilePath m fs clock timeZoneName format name e seq seqDigits
      = upAndDownFilePath m fs clock timeZoneName format name ("." +:+ e) seq seqDigits.
Proof.
  split; [done|]. intros e Hne Hdot.
  assert (dotExt e = dotExt ("." +:+ e)) as Hext.
  { unfold dotExt. rewrite decide_False by done.
    rewrite decide_False by (by rewrite app_String).
    f_equal. unfold strings_TrimPrefix. rewrite Hdot.
    rewrite app_String, app_empty_l, prefix_byte, bool_decide_eq_true_2 by done.
    cbn [String.length String.substring].
    replace (S (String.length e) - 1)%nat with (String.length e) by lia.
    clear. induction e as [|c e IH]; [done|]. simpl. by rewrite <- IH. }
  unfold upAndDownFilePath. by rewrite Hext.
Qed.

End MakeMigrate_facts.

(** C1: the code names the down file like the up file.  In an empty
    directory, in sequential mode with six digits, [upAndDownFilePath]
    returns the path [migrations/000001_init.up.sql] twice; [MakeMigrate]
    writes the up statements there and then the down statements over them,
    and there is no file [migrations/000001_init.down.sql]. *)
Theorem MakeMigrate_writes_down_over_up :
  let m := sampleMigrator quietEngine (Ok sampleResult) in
  let r := MakeMigrate (R := flatRuntime) m 0 "" defaultTimeFormat "init" "" true 6 (start (R := flatRuntime) ∅) in
  upAndDownFilePath (R := flatRuntime) m ∅ 0 "" defaultTimeFormat "init" "" true 6
  = Ok ("migrations/000001_init.up.sql", "migrations/000001_init.up.sql")
  ∧ r.1 = Next None
  ∧ files r.2 !! "migrations/000001_init.up.sql" = Some (writeTables (Down sampleResult))
  ∧ files r.2 !! "migrations/000001_init.down.sql" = None
  ∧ writeTables (Down sampleResult) ≠ writeTables (Up sampleResult).
Proof.
  cbv zeta. split; [vm_compute; reflexivity|].
  split; [vm_compute; reflexivity|].
  split; [vm_compute; reflexivity|]. split; [vm_compute; reflexivity|].
  vm_compute. discriminate.
Qed.

(** The handler of [create] with the flag [-seq] and the other flags at
    their defaults ends in [Fatal]. *)
Example create_seq_is_refused :
  let b := {| migrator := sampleMigrator quietEngine (Ok sampleResult);
              migrate_flag := {| verbosePtr := false; prefetchPtr := 10; lockTimeoutPtr := 15 |};
              create_flag := {| extPtr := ""; seqPtr := true; seqDigitsPtr := 6;
                                formatPtr := ""; tzPtr := "" |};
              down_flag := {| allPtr := false |};
              drop_flag := {| forceDropPtr := false |} |} in
  let r := buildCreateCmd_Run (R := flatRuntime) b 0 ["init"] (start (R := flatRuntime) ∅) in
  r.1 = Exited
  ∧ output r.2 = [SetPrefetchMigrations 10; SetLockTimeout 15;
                  LogFatal defaultLogger
                    "the seq and format options are mutually exclusive" []].
Proof. cbv zeta. split; vm_compute; reflexivity. Qed.

(** C2 at work: with the text of the default layout as the format, the
    sequential mode gives its first version. *)
Lemma upAndDownFilePath_seq_guard_witness :
  upAndDownFilePath (R := flatRuntime) (sampleMigrator quietEngine (Ok sampleResult))
    ∅ 0 "" defaultTimeFormat "init" "" true 6
  = Ok ("migrations/000001_init.up.sql", "migrations/000001_init.up.sql").
Proof.
  refine (proj2 (proj2 (upAndDownFilePath_seq_guard (R := flatRuntime)
                          (sampleMigrator quietEngine (Ok sampleResult))
                          ∅ 0 "" "init" "" 6)) "000001" _ _).
  - vm_compute. reflexivity.
  - vm_compute. reflexivity.
Defined.

(** After [SetLogger], the empty result is logged and nil is returned. *)
Example MakeMigrate_empty_after_SetLogger :
  let m := SetLogger (sampleMigrator quietEngine (Ok emptyResult)) (userLogger "app") in
  let r := MakeMigrate (R := flatRuntime) m 0 "" "" "init" "" false 6
             (start (R := flatRuntime) dirTwo) in
  r.1 = Next None
  ∧ output r.2 = [LogPrintf (userLogger "app") "no change" []]
  ∧ files r.2 = dirTwo.
Proof. cbv zeta. split; [|split]; reflexivity. Qed.

(** C4 at work: the last file is [1_b.sql], the next version is [000002],
    and [000002_a.up.sql] is there already. *)
Lemma MakeMigrate_duplicate_version_witness :
  MakeMigrate (R := flatRuntime) (sampleMigrator quietEngine (Ok sampleResult))
    0 "" defaultTimeFormat "init" "" true 6 (start (R := flatRuntime) dirClash)
  = (Next (Some (errDuplicateVersion "000002")), start (R := flatRuntime) dirClash).
Proof.
  refine (MakeMigrate_duplicate_version (R := flatRuntime)
            (sampleMigrator quietEngine (Ok sampleResult)) (start (R := flatRuntime) dirClash)
            0 "" defaultTimeFormat "init" "" true 6 sampleResult "000002"
            ["migrations/000002_a.up.sql"] eq_refl eq_refl (λ _, eq_refl) _ _ _).
  - vm_compute. reflexivity.
  - vm_compute. reflexivity.
  - discriminate.
Defined.

(** C5 at work: a migrator as [New] makes it, an empty result: the call
    panics. *)
Lemma MakeMigrate_empty_result_witness :
  MakeMigrate (R := flatRuntime) (sampleMigrator quietEngine (Ok emptyResult))
    0 "" "" "init" "" false 6 (start (R := flatRuntime) ∅)
  = (Panicked, start ∅).
Proof.
  exact (MakeMigrate_empty_result (R := flatRuntime)
           (sampleMigrator quietEngine (Ok emptyResult)) (start (R := flatRuntime) ∅)
           0 "" "" "init" "" false 6 emptyResult eq_refl eq_refl).
Defined.

(** C10 at work: the extensions [go] and [.go]. *)
Lemma upAndDownFilePath_leading_dot_witness :
  upAndDownFilePath (R := flatRuntime) (sampleMigrator quietEngine (Ok sampleResult))
    dirTwo 0 "" "unix" "init" "go" false 6
  = upAndDownFilePath (R := flatRuntime) (sampleMigrator quietEngine (Ok sampleResult))
      dirTwo 0 "" "unix" "init" ("." +:+ "go") false 6.
Proof.
  exact (proj2 (upAndDownFilePath_leading_dot (R := flatRuntime)
                  (sampleMigrator quietEngine (Ok sampleResult))
                  dirTwo 0 "" "unix" "init" false 6)
           "go" ltac:(discriminate) eq_refl).
Defined.

(** ** timeVersion *)

Lemma FormatInt_int_text (i : Z) : int_text (strconv_FormatInt i) i.
Proof.
  unfold int_text, strconv_FormatInt. case_decide.
  - eexists. split; [done|]. apply FormatUint_spec. lia.
  - apply FormatUint_spec. lia.
Qed.

(** C7: an unknown zone name is an error; otherwise, with the time in the
    named zone (the local one for the empty name), the empty format gives
    the layout [20060102150405], [unix] the seconds and [unixNano] the
    nanoseconds since the epoch in base 10, and any other format is the
    layout. *)
Theorem timeVersion_spec `{R : Runtime} (clock : Time) (timeZoneName format : string) :
  (∀ e, timeZoneName ≠ "" → time_LoadLocation timeZoneName = Err e →
        timeVersion clock timeZoneName format = Err e)
  ∧ ∀ location,
      (if decide (timeZoneName = "") then location = time_Local
       else time_LoadLocation timeZoneName = Ok location) →
      (format = "" →
         timeVersion clock timeZoneName format
         = Ok (time_Format (time_In clock location) "20060102150405"))
      ∧ (format = "unix" →
           ∃ version, timeVersion clock timeZoneName format = Ok version
                      ∧ int_text version (time_Unix (time_In clock location)))
      ∧ (format = "unixNano" →
           ∃ version, timeVersion clock timeZoneName format = Ok version
                      ∧ int_text version (time_UnixNano (time_In clock location)))
      ∧ (format ≠ "" → format ≠ "unix" → format ≠ "unixNano" →
           timeVersion clock timeZoneName format
           = Ok (time_Format (time_In clock location) format)).
Proof.
  unfold timeVersion. split.
  - intros e Hne He. by rewrite decide_False, He.
  - intros location Hloc.
    assert ((if decide (timeZoneName = "") then Ok time_Local
             else time_LoadLocation timeZoneName) = Ok location) as ->.
    { case_decide; by subst. }
    rewrite bind_Ok. repeat split.
    + by intros ->.
    + intros ->. eexists. split; [done|]. apply FormatInt_int_text.
    + intros ->. eexists. split; [done|]. apply FormatInt_int_text.
    + intros H1 H2 H3. by rewrite !decide_False.
Qed.

(** C7 at work: the seconds since the epoch, in the zone UTC. *)
Lemma timeVersion_spec_witness :
  ∃ version,
    timeVersion (R := flatRuntime) 1700000000123456789 "UTC" "unix" = Ok version
    ∧ int_text version 1700000000.
Proof.
  exact (proj1 (proj2 (proj2 (timeVersion_spec (R := flatRuntime)
                                 1700000000123456789 "UTC" "unix") tt eq_refl))
           eq_refl).
Defined.

Example timeVersion_default_layout :
  timeVersion (R := flatRuntime) 1700000000123456789 "" "" = Ok "20231114221320".
Proof. vm_compute. reflexivity. Qed.

(** ** The handlers *)

Section handler_steps.
Context `{R : Runtime}.
Variable builder : migratorCobraCommandBuilder.

Lemma setupMigrator_run (w : World) :
  setupMigrator builder w
  = (Next tt, {| files := files w; output := output w ++ setupEvents builder |}).
Proof.
  unfold setupMigrator, setupEvents, mbind, Cmd_bind, mret, Cmd_ret, emit.
  destruct (verbosePtr (migrate_flag builder)); cbn [fst snd files output];
    by rewrite <- ?app_assoc.
Qed.

Lemma closeMigrator_run (w : World) :
  closeMigrator builder w
  = (Next tt, {| files := files w; output := output w ++ closeEvents builder |}).
Proof.
  unfold closeMigrator, closeEvents, Migrator_Close, LogErr,
    mbind, Cmd_bind, mret, Cmd_ret, emit.
  cbn [fst snd files output].
  destruct (migrate_Close (migrate (migrator builder))) as [sourceErr databaseErr].
  destruct (bool_decide (sourceErr ≠ None) || bool_decide (databaseErr ≠ None));
    cbn [fst snd files output]; by rewrite <- ?app_assoc.
Qed.

Lemma finished_run (elapsed : Z) (w : World) :
  finished builder elapsed w
  = (Next tt, {| files := files w; output := output w ++ finishedEvents builder elapsed |}).
Proof.
  unfold finished, finishedEvents, Info, mret, Cmd_ret, emit.
  destruct (verbosePtr (migrate_flag builder)); [done|].
  rewrite app_nil_r. by destruct w.
Qed.

Lemma elem_of_setupEvents (e : event) :
  e ∈ setupEvents builder →
  e = LogSetVerbose (logger (migrator builder)) true
  ∨ e = SetPrefetchMigrations (prefetchPtr (migrate_flag builder))
  ∨ e = SetLockTimeout (lockTimeoutPtr (migrate_flag builder)).
Proof.
  unfold setupEvents. destruct (verbosePtr _); cbn [app];
    rewrite ?elem_of_cons, elem_of_nil; tauto.
Qed.

Lemma elem_of_closeEvents (e : event) :
  e ∈ closeEvents builder →
  e = Engine CallClose ∨ ∃ kvs, e = LogError (logger (migrator builder))
                                   "encountered an error when close migrator" kvs.
Proof.
  unfold closeEvents. destruct (migrate_Close _) as [sourceErr databaseErr].
  destruct (_ || _); rewrite ?elem_of_cons, elem_of_nil; [|tauto].
  intros [->|[->|[]]]; eauto.
Qed.

Lemma elem_of_finishedEvents (elapsed : Z) (e : event) :
  e ∈ finishedEvents builder elapsed →
  e = LogInfo (logger (migrator builder)) ("Finished After " +:+ fmt_d elapsed +:+ " ms") [].
Proof.
  unfold finishedEvents. destruct (verbosePtr _);
    rewrite ?elem_of_cons, elem_of_nil; tauto.
Qed.

End handler_steps.

(** Replaces a test by its outcome when the outcome is a hypothesis. *)
Ltac step_known :=
  match goal with
  | H : ?x = _ |- context [ match ?x with _ => _ end ] => rewrite H
  end.

(** Splits the innermost test of a term. *)
Ltac split_inner x :=
  lazymatch x with
  | context [ match ?y with _ => _ end ] => split_inner y
  | _ => destruct x eqn:?
  end.

Ltac case_inner :=
  match goal with
  | |- context [ match ?x with _ => _ end ] => split_inner x
  end.

(** Runs a handler on the cases of what it reads: the three fixed parts are
    replaced by their events, the combinators are unfolded and every other
    test is split. *)
Ltac run_cmd :=
  repeat (first
    [ rewrite setupMigrator_run
    | rewrite closeMigrator_run
    | rewrite finished_run
    | progress (unfold mbind, mret, Cmd_bind, Cmd_ret, emit, exit, panic, defer,
                Fatal, Info, Migrator_Down, Migrator_Up, Migrator_Drop,
                Migrator_Force, Migrator_Goto, start in * )
    | progress (cbn [fst snd files output] in * )
    | step_known
    | case_inner; simplify_eq ]).

(** Closes what is left: the status, the last event or the membership of an
    event in the output. *)
Ltac close_run :=
  unfold fatal_with, info_not_fatal; run_cmd; cbn [fst snd files output];
  rewrite ?last_snoc, ?app_nil_l;
  rewrite ?elem_of_app, ?elem_of_cons, ?elem_of_nil;
  repeat match goal with
         | |- context [ ?e ∈ setupEvents ?b ] =>
             let H := fresh in pose proof (elem_of_setupEvents b e) as H;
             generalize dependent (e ∈ setupEvents b); intros
         | |- context [ ?e ∈ closeEvents ?b ] =>
             let H := fresh in pose proof (elem_of_closeEvents b e) as H;
             generalize dependent (e ∈ closeEvents b); intros
         | |- context [ ?e ∈ finishedEvents ?b ?t ] =>
             let H := fresh in pose proof (elem_of_finishedEvents b t e) as H;
             generalize dependent (e ∈ finishedEvents b t); intros
         end;
  try lia; try done; naive_solver.

#[local] Set Warnings "-clear-no-such-hyp".

Lemma int_of_uint64_small (n : Z) : n < 2 ^ 63 → int_of_uint64 n = n.
Proof. intros Hn. unfold int_of_uint64. by rewrite decide_True. Qed.

(** C8 as stated fails for the counts that do not fit an [int]: the single
    argument [18446744073709551615] gives [-1], the number that asks for all
    the down migrations, and no confirmation. *)
Lemma numDownMigrationsFromArgs_wraps :
  decimal "18446744073709551615" 18446744073709551615
  ∧ numDownMigrationsFromArgs false ["18446744073709551615"] = (-1, false, None)
  ∧ numDownMigrationsFromArgs false ["18446744073709551615"]
    ≠ (18446744073709551615, false, None).
Proof.
  split; [split; [discriminate|split; vm_compute; reflexivity]|].
  split; [vm_compute; reflexivity|]. vm_compute. discriminate.
Qed.

(** When the arguments are refused, no confirmation is asked for. *)
Lemma numDownMigrationsFromArgs_error (applyAll : bool) (args : list string)
    (num : Z) (needsConfirm : bool) (err : error) :
  numDownMigrationsFromArgs applyAll args = (num, needsConfirm, Some err) →
  needsConfirm = false.
Proof.
  unfold numDownMigrationsFromArgs. intros H.
  repeat (case_match; simplify_eq); done.
Qed.

Section handlers.
Context `{R : Runtime}.
Variable builder : migratorCobraCommandBuilder.

(** C8, as amended: the four shapes of the arguments, with the count [n]
    below [2^63]; the second component is true exactly when [-all] is not set
    and there is no argument; and the handler asks its question exactly when
    the second component is true. *)
Theorem numDownMigrationsFromArgs_spec :
  numDownMigrationsFromArgs false [] = (-1, true, None)
  ∧ (∀ s n, decimal s n → n < 2 ^ 63 →
       numDownMigrationsFromArgs false [s] = (n, false, None))
  ∧ numDownMigrationsFromArgs true [] = (-1, false, None)
  ∧ (∀ a args, ∃ err, numDownMigrationsFromArgs true (a :: args) = (0, false, Some err))
  ∧ (∀ s, (¬ ∃ n, decimal s n ∧ n <= maxUint64) →
       ∃ err, numDownMigrationsFromArgs false [s] = (0, false, Some err))
  ∧ (∀ a a' args, ∃ err, numDownMigrationsFromArgs false (a :: a' :: args) = (0, false, Some err))
  ∧ (∀ applyAll args,
       (numDownMigrationsFromArgs applyAll args).1.2 = true ↔ applyAll = false ∧ args = [])
  ∧ (∀ response elapsed args fs,
       Println downPrompt
         ∈ output (buildDownCommand_Run builder response elapsed args (start fs)).2
       ↔ (numDownMigrationsFromArgs (allPtr (down_flag builder)) args).1.2 = true).
Proof.
  split; [done|]. split.
  { intros s n Hdec Hn. unfold numDownMigrationsFromArgs.
    assert (strconv_ParseUint s = Ok n) as ->
      by (apply ParseUint_Ok; split; [done|unfold maxUint64; lia]).
    by rewrite int_of_uint64_small. }
  split; [done|]. split; [by eexists|]. split.
  { intros s Hnot. unfold numDownMigrationsFromArgs.
    destruct (strconv_ParseUint s) as [n|e] eqn:Hparse; [|by eexists].
    exfalso. apply Hnot. exists n. by apply ParseUint_Ok. }
  split; [by eexists|]. split.
  { intros applyAll args. unfold numDownMigrationsFromArgs.
    destruct applyAll; [case_decide; naive_solver|].
    destruct args as [|a [|a' args]]; [naive_solver| |naive_solver].
    destruct (strconv_ParseUint a); naive_solver. }
  intros response elapsed args fs. unfold buildDownCommand_Run, downPrompt.
  destruct (numDownMigrationsFromArgs _ _) as [[num needsConfirm] [err|]] eqn:Hnum.
  - apply numDownMigrationsFromArgs_error in Hnum as ->. close_run.
  - close_run.
Qed.

(** C6, as amended: in the handlers of [goto], [up] and [down], when the
    engine answers [ErrNoChange] its text is logged with [Info] and the
    handler returns, and any other error of the engine ends the run in
    [Fatal]; in the handlers of [drop] and [force] every error of the
    engine ends the run in [Fatal]. *)
Theorem engine_errors (fs : FS) (response : string) (elapsed : Z)
    (args : list string) (err : error) :
  let l := logger (migrator builder) in
  let e := migrate (migrator builder) in
  (∀ arg rest v,
     args = arg :: rest → strconv_ParseUint arg = Ok v →
     migrate_Migrate e v = Some err →
     (err = ErrNoChange →
        info_not_fatal l err (buildGotoCmd_Run builder elapsed args (start fs)))
     ∧ (err ≠ ErrNoChange →
          fatal_with l err (buildGotoCmd_Run builder elapsed args (start fs))))
  ∧ (∀ limit,
       (args = [] ∧ limit = -1
        ∨ ∃ arg rest n, args = arg :: rest ∧ strconv_ParseUint arg = Ok n
                        ∧ limit = int_of_uint64 n) →
       (if decide (limit <= 0) then migrate_Up e else migrate_Steps e limit) = Some err →
       (err = ErrNoChange →
          info_not_fatal l err (buildUpCommand_Run builder elapsed args (start fs)))
       ∧ (err ≠ ErrNoChange →
            fatal_with l err (buildUpCommand_Run builder elapsed args (start fs))))
  ∧ (∀ num needsConfirm,
       numDownMigrationsFromArgs (allPtr (down_flag builder)) args
       = (num, needsConfirm, None) →
       (needsConfirm = true → strings_ToLower (strings_TrimSpace response) = "y") →
       (if decide (num <= 0) then migrate_Down e else migrate_Steps e (- num)) = Some err →
       (err = ErrNoChange →
          info_not_fatal l err (buildDownCommand_Run builder response elapsed args (start fs)))
       ∧ (err ≠ ErrNoChange →
            fatal_with l err (buildDownCommand_Run builder response elapsed args (start fs))))
  ∧ ((forceDropPtr (drop_flag builder) = true
      ∨ strings_ToLower (strings_TrimSpace response) = "y") →
     migrate_Drop e = Some err →
     fatal_with l err (buildDropCommand_Run builder response elapsed args (start fs)))
  ∧ (∀ arg rest v,
       args = arg :: rest → strconv_ParseUint arg = Ok v →
       migrate_Force e (int_of_uint64 v) = Some err →
       fatal_with l err (buildForceCommand_Run builder elapsed args (start fs))).
Proof.
  intros l e. subst l e. split; [|split; [|split; [|split]]].
  - intros arg rest v -> Hparse Hanswer. unfold buildGotoCmd_Run.
    split; intros Herr; close_run.
  - intros limit Hlimit Hanswer. unfold buildUpCommand_Run.
    destruct Hlimit as [[-> ->]|(arg & rest & n & -> & Hparse & ->)];
      split; intros Herr; close_run.
  - intros num needsConfirm Hnum Hyes Hanswer. unfold buildDownCommand_Run.
    rewrite Hnum. destruct needsConfirm; [specialize (Hyes eq_refl)|clear Hyes];
      split; intros Herr; close_run.
  - intros Hgo Hanswer. unfold buildDropCommand_Run.
    destruct (forceDropPtr (drop_flag builder)) eqn:Hforce;
      [|destruct Hgo as [|Hyes]; [done|]]; close_run.
  - intros arg rest v -> Hparse Hanswer. unfold buildForceCommand_Run.
    pose proof (ParseUint_range _ _ Hparse). close_run.
Qed.

(** C9: a value that [strconv.ParseUint] returns is not below [-1]; so in
    the handler of [force] a [Fatal] with the text of the guard can only
    come after the call of the engine, with that text as the text of the
    engine's own error. *)
Theorem force_guard_unreachable :
  (∀ s v, strconv_ParseUint s = Ok v → ¬ v < -1)
  ∧ ∀ elapsed args fs,
      let r := buildForceCommand_Run builder elapsed args (start fs) in
      LogFatal (logger (migrator builder)) "argument V must be >= -1" [] ∈ output r.2 →
      ∃ version, Engine (CallForce version) ∈ output r.2.
Proof.
  split.
  - intros s v Hparse. apply ParseUint_range in Hparse. lia.
  - intros elapsed args fs. cbv zeta. unfold buildForceCommand_Run.
    destruct args as [|arg rest]; [close_run|].
    destruct (strconv_ParseUint arg) as [v|e] eqn:Hparse; [|close_run].
    pose proof (ParseUint_range _ _ Hparse).
    intros _. exists (int_of_uint64 v). close_run.
Qed.

End handlers.

(** C8 at work: the single argument [3]. *)
Lemma numDownMigrationsFromArgs_spec_witness :
  numDownMigrationsFromArgs false ["3"] = (3, false, None).
Proof.
  refine (proj1 (proj2 (numDownMigrationsFromArgs_spec (R := flatRuntime)
                          (sampleBuilder quietEngine))) "3" 3 _ _).
  - split; [discriminate|split; reflexivity].
  - lia.
Defined.

(** C6 as stated fails for [drop]: when the engine answers [ErrNoChange] to
    [Drop], the handler ends in [Fatal] with the text [no change]; nothing is
    logged with [Info]. *)
Lemma drop_no_change_is_fatal :
  let r := buildDropCommand_Run (R := flatRuntime)
             (sampleBuilder (dropAnswers (Some ErrNoChange))) "" 5 []
             (start (R := flatRuntime) ∅) in
  r.1 = Exited
  ∧ output r.2 = [SetPrefetchMigrations 10; SetLockTimeout 15; Engine CallDrop;
                  LogFatal defaultLogger "no change" []]
  ∧ ¬ info_not_fatal (R := flatRuntime) defaultLogger ErrNoChange r.
Proof.
  cbv zeta. split; [vm_compute; reflexivity|]. split; [vm_compute; reflexivity|].
  intros [Hstatus _]. vm_compute in Hstatus. discriminate.
Qed.

(** C6 at work: [goto 3] on an engine that is at version 3 already. *)
Lemma engine_errors_witness :
  info_not_fatal (R := flatRuntime) defaultLogger ErrNoChange
    (buildGotoCmd_Run (R := flatRuntime) (sampleBuilder noChangeEngine) 5 ["3"]
       (start (R := flatRuntime) ∅)).
Proof.
  exact (proj1 (proj1 (engine_errors (R := flatRuntime) (sampleBuilder noChangeEngine)
                         ∅ "" 5 ["3"] ErrNoChange)
                  "3" [] 3 eq_refl eq_refl eq_refl)
           eq_refl).
Defined.

(** C9 at work: the argument [42]. *)
Lemma force_guard_unreachable_witness : ¬ 42 < -1.
Proof.
  exact (proj1 (force_guard_unreachable (R := flatRuntime) (sampleBuilder quietEngine))
           "42" 42 eq_refl).
Defined.

(** Beyond a million, [fmt] refuses the width: the version is the numeral
    after the text [%!(BADWIDTH)], and it passes the test of the length. *)
Example nextSeqVersion_width_over_a_million :
  nextSeqVersion (R := flatRuntime) ∅ "migrations" ".sql" 1000001 = Ok "%!(BADWIDTH)1".
Proof. vm_compute. reflexivity. Qed.

(** A count that wraps to [-1] asks the engine for all the down migrations,
    and the handler does not ask its question. *)
Example down_wrapped_count_applies_all :
  let r := buildDownCommand_Run (R := flatRuntime) (sampleBuilder quietEngine)
             "" 5 ["18446744073709551615"] (start (R := flatRuntime) ∅) in
  r.1 = Next tt
  ∧ output r.2 = [SetPrefetchMigrations 10; SetLockTimeout 15; Engine CallDown;
                  Engine CallClose].
Proof. cbv zeta. split; vm_compute; reflexivity. Qed.

(** * More of the code *)

(** ** The order of numerals *)

Lemma dec_value_bound (s : string) :
  all_digits s = true → 0 <= dec_value s < 10 ^ len s.
Proof.
  induction s as [|c s IH]; intros Hd; [done|].
  simpl in Hd. apply andb_true_iff in Hd as [Hc Hs]. apply is_digit_range in Hc.
  specialize (IH Hs). unfold dec_value in *. simpl.
  rewrite dec_acc_pow, len_String.
  rewrite Z.pow_add_r, Z.pow_1_r by (pose proof (len_nonneg s); lia).
  unfold dec_value. nia.
Qed.

(** Numerals of the same length compare as strings the way the numbers
    compare. *)
Lemma digits_compare (a b : string) :
  all_digits a = true → all_digits b = true → String.length a = String.length b →
  (a ?= b)%string = (dec_value a ?= dec_value b).
Proof.
  revert b. induction a as [|c a IH]; intros [|d b] Ha Hb Hlen; try done.
  simpl in Ha, Hb. apply andb_true_iff in Ha as [Hc Ha], Hb as [Hd Hb].
  apply is_digit_range in Hc, Hd. injection Hlen as Hlen.
  pose proof (dec_value_bound a Ha) as Hva. pose proof (dec_value_bound b Hb) as Hvb.
  assert (len a = len b) as Hl by (unfold len; lia).
  cbn [String.compare]. unfold Ascii.compare. rewrite <- N2Z.inj_compare.
  unfold dec_value in *. cbn [dec_acc]. rewrite !dec_acc_pow, Hl.
  fold (byte_val c) (byte_val d). unfold dec_value in *.
  rewrite Hl in Hva.
  destruct (Z.compare_spec (byte_val c) (byte_val d)) as [Heq|Hlt|Hgt].
  - rewrite Heq. rewrite Z.add_compare_mono_l. by apply IH.
  - symmetry. apply Z.compare_lt_iff. nia.
  - symmetry. apply Z.compare_gt_iff. nia.
Qed.

Lemma digits_le (a b : string) :
  all_digits a = true → all_digits b = true → String.length a = String.length b →
  (a ≤ b)%string ↔ dec_value a <= dec_value b.
Proof.
  intros Ha Hb Hlen. unfold String.le, String.leb.
  rewrite digits_compare by done.
  destruct (Z.compare_spec (dec_value a) (dec_value b)); simpl; split; try done; lia.
Qed.

(** What decides two strings of the same length decides what starts with
    them. *)
Lemma compare_app_Lt (a b s t : string) :
  String.length a = String.length b → (a ?= b)%string = Lt →
  (a +:+ s ?= b +:+ t)%string = Lt.
Proof.
  revert b. induction a as [|c a IH]; intros [|d b] Hlen Hcmp; try done.
  injection Hlen as Hlen. rewrite !app_String. cbn [String.compare] in *.
  destruct (Ascii.compare c d); [by apply IH|done|done].
Qed.

Lemma le_lt_compare (x y z : string) :
  (x ≤ y)%string → (y ?= z)%string = Lt → (x ?= z)%string = Lt.
Proof.
  intros Hxy Hyz.
  assert (y ≤ z)%string as Hle by (unfold String.le, String.leb; by rewrite Hyz).
  assert (x ≤ z)%string as Hxz by (by etrans).
  destruct (x ?= z)%string eqn:Hcmp; [|done|].
  - apply String.compare_eq_iff in Hcmp as ->.
    assert (y = z) as -> by (by apply (anti_symm String.le)).
    clear -Hyz. exfalso. induction z as [|c z IH]; [done|].
    cbn [String.compare] in Hyz. unfold Ascii.compare in Hyz.
    rewrite N.compare_refl in Hyz. by apply IH.
  - unfold String.le, String.leb in Hxz. by rewrite Hcmp in Hxz.
Qed.

(** ** The versions nextSeqVersion returns *)

Section nextSeqVersion_more.
Context `{R : Runtime}.

(** A version that [nextSeqVersion] returns is the padded text of a 64-bit
    number, and it is not longer than the width. *)
Lemma nextSeqVersion_Ok_inv (fs : FS) (dir ext : string) (W : Z) (version : string) :
  nextSeqVersion fs dir ext W = Ok version →
  1 <= W ∧ ∃ n, 0 <= n <= maxUint64 ∧ version = Sprintf_seq n W ∧ len version <= W.
Proof.
  unfold nextSeqVersion. destruct (filepath_Glob _ _) as [matches|e]; [|done].
  rewrite bind_Ok. case_decide as HW; [done|].
  assert (∀ r : result Z,
            (∀ n, r = Ok n → 0 <= n <= maxUint64) →
            (r ≫= λ nextSeq,
               let version := Sprintf_seq nextSeq W in
               if decide (W < len version) then Err (errSeqTooLarge version W)
               else Ok version) = Ok version →
            1 <= W ∧ ∃ n, 0 <= n <= maxUint64 ∧ version = Sprintf_seq n W ∧ len version <= W)
    as Hstep.
  { intros [n|e] Hn; [|done]. rewrite bind_Ok. cbv zeta.
    case_decide as Hlen; [done|]. intros [= <-].
    split; [lia|]. exists n. split; [by apply Hn|]. split; [done|lia]. }
  apply Hstep. intros n Hn.
  destruct (last matches) as [filename|]; [|injection Hn as <-; unfold maxUint64; lia].
  case_decide; [done|].
  destruct (strconv_ParseUint _) as [v|e]; [|done].
  rewrite bind_Ok in Hn. injection Hn as <-.
  unfold wrap_uint64, maxUint64. pose proof (Z.mod_pos_bound (v + 1) (2 ^ 64)). lia.
Qed.

Lemma nextSeqVersion_digits (fs : FS) (dir ext : string) (W : Z) (version : string) :
  W <= 1000000 → nextSeqVersion fs dir ext W = Ok version →
  len version = W ∧ ∃ n, decimal version n ∧ n <= maxUint64.
Proof.
  intros HW Hrun. apply nextSeqVersion_Ok_inv in Hrun as (HW1 & n & Hn & -> & Hlen).
  assert (n < 10 ^ W) as Hfit.
  { apply FormatUint_len_le; [lia|lia|].
    rewrite Sprintf_seq_pad, len_app, len_repeat_byte in Hlen by lia. lia. }
  destruct (Sprintf_seq_fits n W) as [? ?]; [lia|lia|done|].
  split; [done|]. exists n. split; [done|lia].
Qed.

(** X1: whenever [nextSeqVersion] returns a version, the width is at least
    1 and the version is at most that long; for a width up to 1000000 the
    version is exactly [seqDigits] characters, all of them decimal digits,
    and [strconv.ParseUint] reads it back (so the next call can). *)
Theorem nextSeqVersion_version_shape (fs : FS) (dir ext : string) (W : Z) (version : string) :
  nextSeqVersion fs dir ext W = Ok version →
  1 <= W ∧ len version <= W
  ∧ (W <= 1000000 →
       len version = W ∧ all_digits version = true
       ∧ ∃ n, strconv_ParseUint version = Ok n).
Proof.
  intros Hrun. pose proof (nextSeqVersion_Ok_inv _ _ _ _ _ Hrun) as (HW1 & n & _ & _ & Hle).
  split; [done|]. split; [done|]. intros HW.
  destruct (nextSeqVersion_digits _ _ _ _ _ HW Hrun) as (Hlen & n' & Hdec & Hmax).
  split; [done|]. split; [apply Hdec|]. exists n'. by apply ParseUint_Ok.
Qed.

(** X2: two versions that [nextSeqVersion] returns for the same width (up
    to 1000000) are in the order of strings exactly when their numbers are
    in the order of numbers: sorting the names sorts the versions. *)
Theorem nextSeqVersion_order (fs1 fs2 : FS) (dir1 dir2 ext1 ext2 : string) (W : Z)
    (v1 v2 : string) :
  W <= 1000000 →
  nextSeqVersion fs1 dir1 ext1 W = Ok v1 →
  nextSeqVersion fs2 dir2 ext2 W = Ok v2 →
  ∃ n1 n2, strconv_ParseUint v1 = Ok n1 ∧ strconv_ParseUint v2 = Ok n2
           ∧ ((v1 ≤ v2)%string ↔ n1 <= n2).
Proof.
  intros HW H1 H2.
  destruct (nextSeqVersion_digits _ _ _ _ _ HW H1) as (Hl1 & n1 & Hd1 & Hm1).
  destruct (nextSeqVersion_digits _ _ _ _ _ HW H2) as (Hl2 & n2 & Hd2 & Hm2).
  exists n1, n2. split; [by apply ParseUint_Ok|]. split; [by apply ParseUint_Ok|].
  destruct Hd1 as (_ & Hdig1 & <-), Hd2 as (_ & Hdig2 & <-).
  apply digits_le; [done|done|]. unfold len in *. lia.
Qed.

(** X3: when the last file of the listing has a prefix as wide as
    [seqDigits] (up to 1000000) whose number is below [2^64 - 1], a name that
    starts with the version [nextSeqVersion] returns comes, in the order of
    strings, after the base name of every file of the listing: the new file
    is the last one of the next listing. *)
Theorem sequential_name_sorts_last (fs : FS) (dir ext : string) (W : Z)
    (matches : list string) (f p rest : string) (V : Z) (version tail : string) :
  filepath_Glob fs (filepath_Join dir ("*" +:+ ext)) = Ok matches →
  baseSorted matches → lexLast f matches →
  filepath_Base f = p +:+ "_" +:+ rest → decimal p V → len p = W →
  W <= 1000000 → V + 1 < 2 ^ 64 →
  nextSeqVersion fs dir ext W = Ok version →
  ∀ g, g ∈ matches → (filepath_Base g ?= version +:+ tail)%string = Lt.
Proof.
  intros Hglob Hsorted Hf Hbase Hdec Hlen HW HV Hrun g Hg.
  destruct (last_lexLast f matches Hsorted Hf) as (l & Hlast & Hl).
  pose proof (decimal_nonneg _ _ Hdec) as HV0.
  assert (1 <= W).
  { destruct Hdec as (Hne & _). destruct p; [done|].
    rewrite len_String in Hlen. pose proof (len_nonneg p). lia. }
  rewrite (nextSeqVersion_last fs dir ext W matches l p rest V Hglob) in Hrun;
    [|done|done|congruence|done|unfold maxUint64; lia].
  unfold wrap_uint64 in Hrun. rewrite Z.mod_small in Hrun by lia. cbv zeta in Hrun.
  case_decide as Hlong; [done|]. injection Hrun as <-.
  assert (V + 1 < 10 ^ W) as Hfit.
  { apply FormatUint_len_le; [lia|lia|].
    rewrite Sprintf_seq_pad, len_app, len_repeat_byte in Hlong by lia. lia. }
  destruct (Sprintf_seq_fits (V + 1) W) as [Hlen' (_ & Hdig' & Hval')]; [lia|lia|done|].
  destruct Hdec as (_ & Hdig & Hval).
  assert ((filepath_Base f ?= Sprintf_seq (V + 1) W +:+ tail)%string = Lt) as Hnew.
  { rewrite Hbase. apply compare_app_Lt; [unfold len in *; lia|].
    rewrite digits_compare by (try done; unfold len in *; lia).
    apply Z.compare_lt_iff. lia. }
  destruct Hf as [_ Hmax]. specialize (Hmax g Hg).
  by eapply le_lt_compare.
Qed.

End nextSeqVersion_more.

(** X1 at work: after [000001_...] and [000002_...], six digits wide. *)
Lemma nextSeqVersion_version_shape_witness :
  len "000003" = 6 ∧ all_digits "000003" = true
  ∧ ∃ n, strconv_ParseUint "000003" = Ok n.
Proof.
  exact (proj2 (proj2 (nextSeqVersion_version_shape (R := flatRuntime)
                         dirTwo "migrations" ".sql" 6 "000003"
                         ltac:(vm_compute; reflexivity)))
           ltac:(lia)).
Defined.

(** X2 at work: the first version of an empty directory and the third of
    [dirTwo]. *)
Lemma nextSeqVersion_order_witness :
  ∃ n1 n2, strconv_ParseUint "000001" = Ok n1 ∧ strconv_ParseUint "000003" = Ok n2
           ∧ (("000001" ≤ "000003")%string ↔ n1 <= n2).
Proof.
  assert (nextSeqVersion (R := flatRuntime) (∅ : gmap string string) "migrations" ".sql" 6
          = Ok "000001") as H1 by (vm_compute; reflexivity).
  assert (nextSeqVersion (R := flatRuntime) dirTwo "migrations" ".sql" 6
          = Ok "000003") as H2 by (vm_compute; reflexivity).
  exact (nextSeqVersion_order (R := flatRuntime) _ _ _ _ _ _ 6 _ _ ltac:(lia) H1 H2).
Defined.

(** X3 at work: [000003_orders.up.sql] comes after the two files of
    [dirTwo]. *)
Lemma sequential_name_sorts_last_witness :
  (filepath_Base (Runtime := flatRuntime) "migrations/000001_init.up.sql"
     ?= "000003" +:+ "_orders.up.sql")%string = Lt
  ∧ (filepath_Base (Runtime := flatRuntime) "migrations/000002_users.up.sql"
       ?= "000003" +:+ "_orders.up.sql")%string = Lt.
Proof.
  assert (lexLast (R := flatRuntime) "migrations/000002_users.up.sql"
            ["migrations/000001_init.up.sql"; "migrations/000002_users.up.sql"])
    as Hf.
  { split; [apply list_elem_of_In; simpl; tauto|].
    intros g Hg. apply list_elem_of_In in Hg. simpl in Hg.
    destruct Hg as [<-|[<-|[]]]; vm_compute; exact I. }
  pose proof (sequential_name_sorts_last (R := flatRuntime) dirTwo "migrations" ".sql" 6
                ["migrations/000001_init.up.sql"; "migrations/000002_users.up.sql"]
                "migrations/000002_users.up.sql" "000002" "users.up.sql" 2
                "000003" "_orders.up.sql"
                ltac:(vm_compute; reflexivity)
                ltac:(repeat constructor; vm_compute; exact I)
                Hf
                ltac:(vm_compute; reflexivity)
                ltac:(split; [discriminate|split; vm_compute; reflexivity])
                ltac:(vm_compute; reflexivity)
                ltac:(lia) ltac:(lia)
                ltac:(vm_compute; reflexivity)) as Hlast.
  split; apply Hlast; apply list_elem_of_In; simpl; tauto.
Defined.

(** ** The versions timeVersion returns *)

Lemma ParseUint_FormatInt (i : Z) :
  (0 <= i <= maxUint64 → strconv_ParseUint (strconv_FormatInt i) = Ok i)
  ∧ (i < 0 → is_Err (strconv_ParseUint (strconv_FormatInt i))).
Proof.
  unfold strconv_FormatInt. split.
  - intros Hi. rewrite decide_False by lia. apply ParseUint_Ok.
    split; [apply FormatUint_spec; lia|lia].
  - intros Hi. rewrite decide_True by done. done.
Qed.

Section timeVersion_more.
Context `{R : Runtime}.

(** X4: with the formats [unix] and [unixNano], [timeVersion] returns a
    version that [strconv.ParseUint] reads back as the seconds (nanoseconds)
    of the clock, whenever that number is not negative and fits 64 bits; for
    a clock before 1970 the [unix] version is returned all the same, and
    [strconv.ParseUint] refuses it. *)
Theorem timeVersion_unix_parses (clock : Time) (timeZoneName : string) (location : Location) :
  (if decide (timeZoneName = "") then location = time_Local
   else time_LoadLocation timeZoneName = Ok location) →
  let now := time_In clock location in
  (0 <= time_Unix now <= maxUint64 →
     ∃ version, timeVersion clock timeZoneName "unix" = Ok version
                ∧ strconv_ParseUint version = Ok (time_Unix now))
  ∧ (0 <= time_UnixNano now <= maxUint64 →
       ∃ version, timeVersion clock timeZoneName "unixNano" = Ok version
                  ∧ strconv_ParseUint version = Ok (time_UnixNano now))
  ∧ (time_Unix now < 0 →
       ∃ version, timeVersion clock timeZoneName "unix" = Ok version
                  ∧ is_Err (strconv_ParseUint version)).
Proof.
  intros Hloc now. unfold timeVersion.
  assert ((if decide (timeZoneName = "") then Ok time_Local
           else time_LoadLocation timeZoneName) = Ok location) as ->.
  { case_decide; by subst. }
  rewrite !bind_Ok. fold now. repeat split; intros Ht; eexists; (split; [done|]);
    by apply ParseUint_FormatInt.
Qed.

End timeVersion_more.

(** X4 at work: 14 November 2023, 22:13:20 UTC. *)
Lemma timeVersion_unix_parses_witness :
  ∃ version,
    timeVersion (R := flatRuntime) 1700000000123456789 "UTC" "unix" = Ok version
    ∧ strconv_ParseUint version = Ok 1700000000.
Proof.
  exact (proj1 (timeVersion_unix_parses (R := flatRuntime) 1700000000123456789 "UTC" tt
                  ltac:(vm_compute; reflexivity))
           ltac:(vm_compute; split; discriminate)).
Defined.

(** ** The paths upAndDownFilePath returns *)

Section upAndDownFilePath_more.
Context `{R : Runtime}.

Lemma TrimPrefix_dot (x : string) : strings_TrimPrefix ("." +:+ x) "." = x.
Proof.
  unfold strings_TrimPrefix.
  rewrite app_String, app_empty_l, prefix_byte, bool_decide_eq_true_2 by done.
  cbn [String.length String.substring].
  replace (S (String.length x) - 1)%nat with (String.length x) by lia.
  induction x as [|c x IH]; [done|]. simpl. by rewrite IH.
Qed.

Lemma dotExt_dot (e : string) : ∃ x, dotExt e = "." +:+ x.
Proof. unfold dotExt. case_decide; by eexists. Qed.

Lemma dotExt_idemp (e : string) : dotExt (dotExt e) = dotExt e.
Proof.
  destruct (dotExt_dot e) as [x ->]. unfold dotExt.
  rewrite decide_False by (by rewrite app_String). by rewrite TrimPrefix_dot.
Qed.

(** X5: the extension as [upAndDownFilePath] normalises it starts with a
    dot, and normalising is idempotent: passing the normalised extension
    gives the same result (paths or error) as passing the extension. *)
Theorem upAndDownFilePath_normalised_ext (m : Migrator) (fs : FS) (clock : Time)
    (timeZoneName format name ext : string) (seq : bool) (seqDigits : Z) :
  String.prefix "." (dotExt ext) = true
  ∧ upAndDownFilePath m fs clock timeZoneName format name (dotExt ext) seq seqDigits
    = upAndDownFilePath m fs clock timeZoneName format name ext seq seqDigits.
Proof.
  split.
  - destruct (dotExt_dot ext) as [x ->]. rewrite app_String, app_empty_l.
    by rewrite prefix_byte.
  - unfold upAndDownFilePath. by rewrite dotExt_idemp.
Qed.

(** X6: when [upAndDownFilePath] returns paths, no file of the directory
    matched [<version>_*<ext>] for the version it computed, the first path
    is [<dir>/<version>_<name>.up<ext>], and in sequential mode the format
    was the default layout. *)
Theorem upAndDownFilePath_Ok_inv (m : Migrator) (fs : FS) (clock : Time)
    (timeZoneName format name ext : string) (seq : bool) (seqDigits : Z)
    (up down : string) :
  upAndDownFilePath m fs clock timeZoneName format name ext seq seqDigits = Ok (up, down) →
  (seq = true → format = defaultTimeFormat)
  ∧ ∃ version,
      (if seq then nextSeqVersion fs (migrationsFilePath m) (dotExt ext) seqDigits
       else timeVersion clock timeZoneName format) = Ok version
      ∧ filepath_Glob fs
          (filepath_Join (migrationsFilePath m) (version +:+ "_*" +:+ dotExt ext))
        = Ok []
      ∧ up = filepath_Join (migrationsFilePath m)
               (version +:+ "_" +:+ name +:+ ".up" +:+ dotExt ext).
Proof.
  unfold upAndDownFilePath. intros Hrun.
  destruct (seq && bool_decide (format ≠ defaultTimeFormat)) eqn:Hguard; [done|].
  split.
  { intros ->. cbn [andb] in Hguard. apply bool_decide_eq_false in Hguard.
    by destruct (decide (format = defaultTimeFormat)). }
  destruct (if seq then _ else _) as [version|e] eqn:Hversion; [|done].
  rewrite bind_Ok in Hrun.
  destruct (filepath_Glob _ _) as [matches|e] eqn:Hglob; [|done].
  rewrite bind_Ok in Hrun.
  case_decide as Hlen; [done|]. injection Hrun as <- <-.
  exists version. split; [done|]. split; [|reflexivity].
  destruct matches; [done|]. simpl in Hlen. lia.
Qed.

End upAndDownFilePath_more.

(** X6 at work: a [unix] version beside the two files of [dirTwo]. *)
Lemma upAndDownFilePath_Ok_inv_witness :
  ∃ version,
    timeVersion (R := flatRuntime) 1700000000123456789 "" "unix" = Ok version
    ∧ filepath_Glob (Runtime := flatRuntime) dirTwo
        (filepath_Join (Runtime := flatRuntime) "migrations" (version +:+ "_*" +:+ dotExt ""))
      = Ok []
    ∧ "migrations/1700000000_init.up.sql"
      = filepath_Join (Runtime := flatRuntime) "migrations"
          (version +:+ "_" +:+ "init" +:+ ".up" +:+ dotExt "").
Proof.
  exact (proj2 (upAndDownFilePath_Ok_inv (R := flatRuntime)
                  (sampleMigrator quietEngine (Ok sampleResult)) dirTwo
                  1700000000123456789 "" "unix" "init" "" false 6
                  "migrations/1700000000_init.up.sql"
                  "migrations/1700000000_init.up.sql"
                  ltac:(vm_compute; reflexivity))).
Defined.

(** ** The ways MakeMigrate ends *)

Section MakeMigrate_more.
Context `{R : Runtime}.


(** X8: [MakeMigrate] changes the files only when the migrate function
    returned a non-empty result and [upAndDownFilePath] returned paths: an
    error of the migrate function, an empty result, a refused flag
    combination, a failed version and a duplicate version all leave the
    directory as it was. *)
Theorem MakeMigrate_writes_only_with_paths (m : Migrator) (clock : Time)
    (timeZoneName format name ext : string) (seq : bool) (seqDigits : Z) (w : World) :
  files (MakeMigrate m clock timeZoneName format name ext seq seqDigits w).2 ≠ files w →
  ∃ migrateResult up down,
    migrateFunc m = Ok migrateResult ∧ Empty migrateResult = false
    ∧ upAndDownFilePath m (files w) clock timeZoneName format name ext seq seqDigits
      = Ok (up, down).
Proof.
  unfold MakeMigrate, Log_Printf, WriteFile, readFS, mbind, mret, Cmd_bind, Cmd_ret,
    emit, panic.
  destruct (migrateFunc m) as [migrateResult|e]; [|done].
  destruct (Empty migrateResult) eqn:Hempty;
    [destruct (Log (migrate m)); cbn [fst snd files]; done|].
  cbn [fst snd files].
  destruct (upAndDownFilePath _ _ _ _ _ _ _ _ _) as [[up down]|e] eqn:Hpaths; [|done].
  intros _. by exists migrateResult, up, down.
Qed.

(** X9: with paths at hand, [MakeMigrate] returns the error of the first
    [os.WriteFile] without attempting the second write, and otherwise
    returns what the second write returns; it logs nothing, and the files
    are those the writes left. *)
Theorem MakeMigrate_write_errors (m : Migrator) (clock : Time)
    (timeZoneName format name ext : string) (seq : bool) (seqDigits : Z) (w : World)
    (migrateResult : MigrateSQLResult) (up down : string) :
  migrateFunc m = Ok migrateResult → Empty migrateResult = false →
  upAndDownFilePath m (files w) clock timeZoneName format name ext seq seqDigits
  = Ok (up, down) →
  (∀ fs1 err, os_WriteFile (files w) up (writeTables (Up migrateResult)) = (fs1, Some err) →
     MakeMigrate m clock timeZoneName format name ext seq seqDigits w
     = (Next (Some err), {| files := fs1; output := output w |}))
  ∧ (∀ fs1 fs2 err,
       os_WriteFile (files w) up (writeTables (Up migrateResult)) = (fs1, None) →
       os_WriteFile fs1 down (writeTables (Down migrateResult)) = (fs2, err) →
       MakeMigrate m clock timeZoneName format name ext seq seqDigits w
       = (Next err, {| files := fs2; output := output w |})).
Proof.
  intros Hfunc Hempty Hpaths.
  unfold MakeMigrate, WriteFile, readFS, mbind, mret, Cmd_bind, Cmd_ret.
  rewrite Hfunc, Hempty. cbn [fst snd files output]. rewrite Hpaths.
  split.
  - intros fs1 err ->. done.
  - intros fs1 fs2 err -> . cbn [fst snd files output]. intros ->. by destruct err.
Qed.

End MakeMigrate_more.

(** X8 at work: a first migration in an empty directory. *)
Lemma MakeMigrate_writes_only_with_paths_witness :
  ∃ migrateResult up down,
    migrateFunc (sampleMigrator quietEngine (Ok sampleResult)) = Ok migrateResult
    ∧ Empty migrateResult = false
    ∧ upAndDownFilePath (R := flatRuntime) (sampleMigrator quietEngine (Ok sampleResult))
        ∅ 1700000000123456789 "" "unix" "init" "" false 6
      = Ok (up, down).
Proof.
  refine (MakeMigrate_writes_only_with_paths (R := flatRuntime)
            (sampleMigrator quietEngine (Ok sampleResult))
            1700000000123456789 "" "unix" "init" "" false 6
            (start (R := flatRuntime) ∅) _).
  intros Heq.
  apply (f_equal (λ fs : gmap string string, fs !! "migrations/1700000000_init.up.sql"))
    in Heq.
  vm_compute in Heq. discriminate.
Defined.

(** X9 at work: the directory cannot be written. *)
Lemma MakeMigrate_write_errors_witness :
  MakeMigrate (R := readOnlyRuntime) (sampleMigrator quietEngine (Ok sampleResult))
    1700000000123456789 "" "unix" "init" "" false 6 (start (R := readOnlyRuntime) ∅)
  = (Next (Some (errorsNew
                   "open migrations/1700000000_init.up.sql: permission denied")),
     start (R := readOnlyRuntime) ∅).
Proof.
  assert (upAndDownFilePath (R := readOnlyRuntime)
            (sampleMigrator quietEngine (Ok sampleResult))
            (files (start (R := readOnlyRuntime) ∅))
            1700000000123456789 "" "unix" "init" "" false 6
          = Ok ("migrations/1700000000_init.up.sql", "migrations/1700000000_init.up.sql"))
    as Hpaths by (vm_compute; reflexivity).
  exact (proj1 (MakeMigrate_write_errors (R := readOnlyRuntime)
                  (sampleMigrator quietEngine (Ok sampleResult))
                  1700000000123456789 "" "unix" "init" "" false 6
                  (start (R := readOnlyRuntime) ∅) sampleResult _ _
                  eq_refl eq_refl Hpaths)
           (∅ : gmap string string) _ eq_refl).
Defined.

Lemma string_app_nil_r (s : string) : s +:+ "" = s.
Proof. induction s as [|c s IH]; [done|]. rewrite app_String. by f_equal. Qed.

Lemma string_app_assoc (s t u : string) : (s +:+ t) +:+ u = s +:+ t +:+ u.
Proof. induction s as [|c s IH]; [done|]. rewrite !app_String. by f_equal. Qed.

Lemma concat_empty_cons (x : string) (xs : list string) :
  String.concat "" (x :: xs) = x +:+ String.concat "" xs.
Proof. destruct xs; [symmetry; apply string_app_nil_r|done]. Qed.

Lemma concat_empty_app (xs ys : list string) :
  String.concat "" (xs ++ ys) = String.concat "" xs +:+ String.concat "" ys.
Proof.
  induction xs as [|x xs IH]; [done|].
  change ((x :: xs) ++ ys) with (x :: (xs ++ ys)).
  by rewrite !concat_empty_cons, IH, string_app_assoc.
Qed.

(** X10: the text [MakeMigrate] writes for a sequence of tables is the
    texts of its parts one after the other, with nothing between two tables,
    and the text for no table is empty. *)
Theorem writeTables_app (tables1 tables2 : list (string * list string)) :
  writeTables [] = ""
  ∧ writeTables (tables1 ++ tables2) = writeTables tables1 +:+ writeTables tables2.
Proof. split; [done|]. unfold writeTables. by rewrite map_app, concat_empty_app. Qed.

(** ** More on the handlers *)

Lemma ParseUint_refused (arg : string) :
  refused arg → ∃ e, strconv_ParseUint arg = Err e.
Proof.
  intros Hnot. destruct (strconv_ParseUint arg) as [n|e] eqn:Hparse; [|by eexists].
  exfalso. apply Hnot. exists n. by apply ParseUint_Ok.
Qed.

(** Closes a goal [refused_with]. *)
Ltac close_refused :=
  unfold refused_with; run_cmd; cbn [fst snd files output];
  rewrite ?last_snoc;
  split; [done|]; split; [done|]; split; [|by eexists];
  let c := fresh "c" in let Hc := fresh "Hc" in
  intros c; rewrite elem_of_app, elem_of_cons, elem_of_nil;
  intros [Hc%elem_of_setupEvents|[|[]]]; naive_solver.

(** Closes a goal on the events of a run, also when it comes with
    hypotheses on them. *)
Ltac close_events :=
  unfold fatal_with, info_not_fatal; run_cmd; cbn [fst snd files output];
  rewrite ?last_snoc, ?app_nil_l;
  rewrite ?elem_of_app, ?elem_of_cons, ?elem_of_nil;
  repeat match goal with
         | |- context [ ?e ∈ setupEvents ?b ] =>
             let H := fresh in pose proof (elem_of_setupEvents b e) as H;
             generalize dependent (e ∈ setupEvents b); intros ? ?
         | |- context [ ?e ∈ closeEvents ?b ] =>
             let H := fresh in pose proof (elem_of_closeEvents b e) as H;
             generalize dependent (e ∈ closeEvents b); intros ? ?
         | |- context [ ?e ∈ finishedEvents ?b ?t ] =>
             let H := fresh in pose proof (elem_of_finishedEvents b t e) as H;
             generalize dependent (e ∈ finishedEvents b t); intros ? ?
         end;
  intros; try lia; try done; naive_solver.

(** Settles a test on numbers that the hypotheses decide. *)
Ltac decide_known :=
  match goal with
  | |- context [ decide ?P ] =>
      first [ rewrite (decide_True (P := P)) by (try done; lia)
            | rewrite (decide_False (P := P)) by (try done; lia) ]
  end.

Ltac run_events :=
  repeat (first
    [ rewrite setupMigrator_run
    | rewrite closeMigrator_run
    | rewrite finished_run
    | progress (unfold mbind, mret, Cmd_bind, Cmd_ret, emit, exit, panic, defer,
                Fatal, Info, Migrator_Down, Migrator_Up, Migrator_Drop,
                Migrator_Force, Migrator_Goto, start in * )
    | progress (cbn [fst snd files output] in * )
    | step_known
    | decide_known
    | case_inner; simplify_eq ]).

Section handlers_more.
Context `{R : Runtime}.
Variable builder : migratorCobraCommandBuilder.

(** X11: [create], [goto] and [force] without an argument, and [goto],
    [force] and [up] with a first argument that is not the decimal numeral
    of an unsigned 64-bit number, end in [Fatal] with the handler's own
    text; the engine is not called (not even [Close]) and the files are
    untouched. *)
Theorem bad_arguments_are_fatal (fs : FS) (clock : Time) (elapsed : Z)
    (arg : string) (rest : list string) :
  let l := logger (migrator builder) in
  refused_with l "please specify name" fs
    (buildCreateCmd_Run builder clock [] (start fs))
  ∧ refused_with l "please specify version argument V" fs
      (buildGotoCmd_Run builder elapsed [] (start fs))
  ∧ refused_with l "please specify version argument V" fs
      (buildForceCommand_Run builder elapsed [] (start fs))
  ∧ (refused arg →
       refused_with l "can't read version argument V" fs
         (buildGotoCmd_Run builder elapsed (arg :: rest) (start fs))
       ∧ refused_with l "can't read version argument V" fs
           (buildForceCommand_Run builder elapsed (arg :: rest) (start fs))
       ∧ refused_with l "can't read limit argument N" fs
           (buildUpCommand_Run builder elapsed (arg :: rest) (start fs))).
Proof.
  intros l. subst l.
  split; [|split; [|split]].
  - unfold buildCreateCmd_Run. close_refused.
  - unfold buildGotoCmd_Run. close_refused.
  - unfold buildForceCommand_Run. close_refused.
  - intros [e Hparse]%ParseUint_refused. split; [|split].
    + unfold buildGotoCmd_Run. close_refused.
    + unfold buildForceCommand_Run. close_refused.
    + unfold buildUpCommand_Run. close_refused.
Qed.

(** X12: [goto] asks the engine for version [v] exactly when its first
    argument is a decimal numeral of [v] within 64 bits, and [force] passes
    the engine exactly [int(v)] for such an argument: no other [Migrate] or
    [Force] call is ever made. *)
Theorem version_argument_reaches_engine (fs : FS) (elapsed : Z) (args : list string) :
  (∀ v, Engine (CallMigrate v)
          ∈ output (buildGotoCmd_Run builder elapsed args (start fs)).2
        ↔ ∃ arg rest, args = arg :: rest ∧ decimal arg v ∧ v <= maxUint64)
  ∧ (∀ k, Engine (CallForce k)
            ∈ output (buildForceCommand_Run builder elapsed args (start fs)).2
          ↔ ∃ arg rest v, args = arg :: rest ∧ decimal arg v ∧ v <= maxUint64
                          ∧ k = int_of_uint64 v).
Proof.
  split.
  - intros v. unfold buildGotoCmd_Run.
    destruct args as [|arg rest]; [close_run|].
    destruct (strconv_ParseUint arg) as [v0|e] eqn:Hparse.
    + pose proof (proj1 (ParseUint_Ok _ _) Hparse) as [Hdec Hmax].
      split.
      * intros Hin. exists arg, rest. assert (v = v0) as -> by (revert Hin; close_events).
        done.
      * intros (arg' & rest' & [= <- <-] & Hdec' & _).
        assert (v = v0) as -> by (destruct Hdec as (_ & _ & <-), Hdec' as (_ & _ & <-); done).
        close_run.
    + split; [close_run|].
      intros (arg' & rest' & [= <- <-] & Hdec' & Hmax').
      assert (strconv_ParseUint arg = Ok v) by (by apply ParseUint_Ok). congruence.
  - intros k. unfold buildForceCommand_Run.
    destruct args as [|arg rest]; [close_run|].
    destruct (strconv_ParseUint arg) as [v0|e] eqn:Hparse.
    + pose proof (proj1 (ParseUint_Ok _ _) Hparse) as [Hdec Hmax].
      pose proof (ParseUint_range _ _ Hparse).
      split.
      * intros Hin. exists arg, rest, v0.
        assert (k = int_of_uint64 v0) as -> by (revert Hin; close_events). done.
      * intros (arg' & rest' & v & [= <- <-] & Hdec' & _ & ->).
        assert (v = v0) as -> by (destruct Hdec as (_ & _ & <-), Hdec' as (_ & _ & <-); done).
        close_run.
    + split; [close_run|].
      intros (arg' & rest' & v & [= <- <-] & Hdec' & Hmax' & _).
      assert (strconv_ParseUint arg = Ok v) by (by apply ParseUint_Ok). congruence.
Qed.

(** X13: [drop] calls the engine's [Drop] exactly when [-f] is set or the
    answer to the question is [y] (after trimming and lowering), and it
    asks the question exactly when [-f] is not set. *)
Theorem drop_needs_confirmation (fs : FS) (response : string) (elapsed : Z)
    (args : list string) :
  let r := buildDropCommand_Run builder response elapsed args (start fs) in
  (Engine CallDrop ∈ output r.2
   ↔ forceDropPtr (drop_flag builder) = true ∨ confirmed response)
  ∧ (Println "Are you sure you want to drop the entire database schema? [y/N]"
       ∈ output r.2
     ↔ forceDropPtr (drop_flag builder) = false).
Proof.
  cbv zeta. unfold buildDropCommand_Run, confirmed.
  destruct (forceDropPtr (drop_flag builder)); split; close_run.
Qed.

(** X14: [down] reaches the engine ([Down] or [Steps]) exactly when
    [numDownMigrationsFromArgs] returns no error and, where it asks for a
    confirmation, the answer is [y]. *)
Theorem down_needs_confirmation (fs : FS) (response : string) (elapsed : Z)
    (args : list string) :
  let out := output (buildDownCommand_Run builder response elapsed args (start fs)).2 in
  (Engine CallDown ∈ out ∨ ∃ k, Engine (CallSteps k) ∈ out)
  ↔ ∃ num needsConfirm,
      numDownMigrationsFromArgs (allPtr (down_flag builder)) args
      = (num, needsConfirm, None)
      ∧ (needsConfirm = true → confirmed response).
Proof.
  cbv zeta. unfold buildDownCommand_Run, confirmed.
  destruct (numDownMigrationsFromArgs _ _) as [[num needsConfirm] [err|]] eqn:Hnum.
  - split; [|naive_solver]. intros [Hin|[k Hin]]; revert Hin; close_events.
  - destruct needsConfirm.
    + destruct (decide (strings_ToLower (strings_TrimSpace response) = "y")) as [Hy|Hn].
      * split; [naive_solver|]. intros _.
        destruct (decide (num <= 0)); [left|right; exists (- num)]; close_events.
      * split; [|naive_solver]. intros [Hin|[k Hin]]; revert Hin; close_events.
    + split; [naive_solver|]. intros _.
      destruct (decide (num <= 0)); [left|right; exists (- num)]; close_events.
Qed.

(** X15: [up] without an argument calls the engine's [Up] and never
    [Steps]; with a first argument that is a numeral of [n], it calls
    [Steps(n)] and nothing else when [1 <= n < 2^63], and [Up] (all the
    migrations) when [n] is 0 or from [2^63] up, where [int(n)] is not
    positive. *)
Theorem up_engine_call (fs : FS) (elapsed : Z) (args : list string) :
  let out := output (buildUpCommand_Run builder elapsed args (start fs)).2 in
  (args = [] → Engine CallUp ∈ out ∧ (∀ k, Engine (CallSteps k) ∉ out))
  ∧ (∀ arg rest n, args = arg :: rest → decimal arg n →
       (1 <= n < 2 ^ 63 →
          (Engine CallUp ∉ out) ∧ (∀ k, Engine (CallSteps k) ∈ out ↔ k = n))
       ∧ (n = 0 ∨ 2 ^ 63 <= n <= maxUint64 →
            Engine CallUp ∈ out ∧ (∀ k, Engine (CallSteps k) ∉ out))).
Proof.
  cbv zeta. unfold buildUpCommand_Run. split.
  - intros ->. split; [|intros k]; run_events; close_events.
  - intros arg rest n -> Hdec. split.
    + intros Hn.
      assert (strconv_ParseUint arg = Ok n) as Hparse
        by (apply ParseUint_Ok; split; [done|unfold maxUint64; lia]).
      pose proof (int_of_uint64_small n ltac:(lia)) as Hint.
      split; [|intros k]; run_events; rewrite ?Hint; close_events.
    + intros Hn.
      assert (strconv_ParseUint arg = Ok n) as Hparse
        by (apply ParseUint_Ok; split; [done|unfold maxUint64 in *; lia]).
      assert (int_of_uint64 n <= 0) as Hint
        by (unfold int_of_uint64, maxUint64 in *; case_decide; lia).
      split; [|intros k]; run_events; close_events.
Qed.

(** X16: [down] without [-all] and with the single argument a numeral of
    [n] calls [Steps(-n)] and nothing else when [1 <= n < 2^63], and [Down]
    (all the down migrations, without a question) when [n] is 0 or from
    [2^63] up. *)
Theorem down_engine_call (fs : FS) (response : string) (elapsed : Z) (arg : string) (n : Z) :
  allPtr (down_flag builder) = false → decimal arg n →
  let out := output (buildDownCommand_Run builder response elapsed [arg] (start fs)).2 in
  (1 <= n < 2 ^ 63 →
     (Engine CallDown ∉ out) ∧ (∀ k, Engine (CallSteps k) ∈ out ↔ k = - n))
  ∧ (n = 0 ∨ 2 ^ 63 <= n <= maxUint64 →
       Engine CallDown ∈ out ∧ (∀ k, Engine (CallSteps k) ∉ out)).
Proof.
  intros Hall Hdec. cbv zeta. unfold buildDownCommand_Run, numDownMigrationsFromArgs.
  rewrite Hall. split.
  - intros Hn.
    assert (strconv_ParseUint arg = Ok n) as ->
      by (apply ParseUint_Ok; split; [done|unfold maxUint64; lia]).
    pose proof (int_of_uint64_small n ltac:(lia)) as Hint.
    split; [|intros k]; run_events; rewrite ?Hint; close_events.
  - intros Hn.
    assert (strconv_ParseUint arg = Ok n) as ->
      by (apply ParseUint_Ok; split; [done|unfold maxUint64 in *; lia]).
    assert (int_of_uint64 n <= 0) as Hint
      by (unfold int_of_uint64, maxUint64 in *; case_decide; lia).
    split; [|intros k]; run_events; close_events.
Qed.

(** What [MakeMigrate] adds to the output. *)
Lemma MakeMigrate_output (m : Migrator) (clock : Time)
    (timeZoneName format name ext : string) (seq : bool) (seqDigits : Z) (w : World) :
  let r := MakeMigrate m clock timeZoneName format name ext seq seqDigits w in
  output r.2 = output w ∨ ∃ l, output r.2 = output w ++ [LogPrintf l "no change" []].
Proof.
  cbv zeta.
  unfold MakeMigrate, Log_Printf, WriteFile, readFS, mbind, mret, Cmd_bind, Cmd_ret,
    emit, panic.
  repeat (case_inner; simplify_eq); cbn [fst snd output]; eauto.
Qed.

Lemma closeEvents_close : Engine CallClose ∈ closeEvents builder.
Proof. unfold closeEvents. apply elem_of_cons. by left. Qed.

(** X17: in each of the six handlers the deferred [closeMigrator] runs,
    and the engine is closed, exactly when the run does not end in [Fatal]:
    a return and a panic close the engine, [os.Exit] skips the deferred
    call. *)
Theorem close_unless_fatal (fs : FS) (clock : Time) (response : string) (elapsed : Z)
    (args : list string) :
  let closed (r : status unit * World) : Prop :=
    Engine CallClose ∈ output r.2 ↔ r.1 ≠ Exited in
  closed (buildCreateCmd_Run builder clock args (start fs))
  ∧ closed (buildGotoCmd_Run builder elapsed args (start fs))
  ∧ closed (buildUpCommand_Run builder elapsed args (start fs))
  ∧ closed (buildDownCommand_Run builder response elapsed args (start fs))
  ∧ closed (buildDropCommand_Run builder response elapsed args (start fs))
  ∧ closed (buildForceCommand_Run builder elapsed args (start fs)).
Proof.
  pose proof closeEvents_close as Hclose.
  cbv zeta. split; [|split; [|split; [|split; [|split]]]].
  - unfold buildCreateCmd_Run. destruct args as [|name rest]; [close_events|].
    unfold defer, mbind, Cmd_bind, mret, Cmd_ret. rewrite setupMigrator_run.
    cbn [fst snd]. unfold start. cbn [files output app].
    match goal with
    | |- context [ MakeMigrate ?m ?c ?tz ?f ?n ?e ?s ?d ?w ] =>
        pose proof (MakeMigrate_output m c tz f n e s d w) as Hout;
        destruct (MakeMigrate m c tz f n e s d w) as [st w'] eqn:Hrun
    end.
    cbv zeta in Hout. cbn [fst snd output] in Hout.
    destruct st as [[err|]| |]; cbn [fst snd]; destruct Hout as [Hout|[l Hout]];
      run_cmd; cbn [fst snd files output]; rewrite ?Hout; close_events.
  - unfold buildGotoCmd_Run. close_events.
  - unfold buildUpCommand_Run. close_events.
  - unfold buildDownCommand_Run.
    destruct (numDownMigrationsFromArgs _ _) as [[num needsConfirm] [err|]]; close_events.
  - unfold buildDropCommand_Run. close_events.
  - unfold buildForceCommand_Run. close_events.
Qed.

(** X18: when [create] has a name, every error [MakeMigrate] returns ends
    the run in [Fatal] with the text of that error, and no error lets the
    handler return and close the engine; the files are those [MakeMigrate]
    left. *)
Theorem create_reports_MakeMigrate (fs : FS) (clock : Time) (name : string)
    (rest : list string) (err : option error) (w' : World) :
  MakeMigrate (migrator builder) clock
    (tzPtr (create_flag builder)) (formatPtr (create_flag builder)) name
    (extPtr (create_flag builder)) (seqPtr (create_flag builder))
    (seqDigitsPtr (create_flag builder))
    {| files := fs; output := setupEvents builder |}
  = (Next err, w') →
  buildCreateCmd_Run builder clock (name :: rest) (start fs)
  = match err with
    | Some err =>
        (Exited,
         {| files := files w';
            output := output w' ++ [LogFatal (logger (migrator builder)) (Error err) []] |})
    | None =>
        (Next tt, {| files := files w'; output := output w' ++ closeEvents builder |})
    end.
Proof.
  intros Hrun. unfold buildCreateCmd_Run, defer, mbind, Cmd_bind, mret, Cmd_ret.
  rewrite setupMigrator_run. cbn [fst snd]. unfold start. cbn [files output app].
  rewrite Hrun. destruct err as [err|].
  - unfold Fatal, mbind, Cmd_bind, emit, exit. done.
  - by rewrite closeMigrator_run.
Qed.

End handlers_more.

Lemma refused_abc : refused "abc".
Proof. intros (n & (_ & Hdigits & _) & _). vm_compute in Hdigits. discriminate. Qed.

(** X11 at work: [goto abc]. *)

Lemma bad_arguments_are_fatal_witness :
  refused_with (R := flatRuntime) defaultLogger "can't read version argument V" ∅
    (buildGotoCmd_Run (R := flatRuntime) (sampleBuilder quietEngine) 5 ["abc"]
       (start (R := flatRuntime) ∅)).
Proof.
  exact (proj1 (proj2 (proj2 (proj2
           (bad_arguments_are_fatal (R := flatRuntime) (sampleBuilder quietEngine)
              ∅ 0 5 "abc" []))) refused_abc)).
Defined.

(** X15 at work: [up 3]. *)
Lemma up_engine_call_witness :
  let out := output (buildUpCommand_Run (R := flatRuntime) (sampleBuilder quietEngine)
                       5 ["3"] (start (R := flatRuntime) ∅)).2 in
  (Engine CallUp ∉ out) ∧ (∀ k, Engine (CallSteps k) ∈ out ↔ k = 3).
Proof.
  exact (proj1 (proj2 (up_engine_call (R := flatRuntime) (sampleBuilder quietEngine)
                         ∅ 5 ["3"])
                  "3" [] 3 eq_refl
                  ltac:(split; [discriminate|split; reflexivity]))
           ltac:(lia)).
Defined.

(** X16 at work: [down 2]. *)
Lemma down_engine_call_witness :
  let out := output (buildDownCommand_Run (R := flatRuntime) (sampleBuilder quietEngine)
                       "" 5 ["2"] (start (R := flatRuntime) ∅)).2 in
  (Engine CallDown ∉ out) ∧ (∀ k, Engine (CallSteps k) ∈ out ↔ k = - 2).
Proof.
  exact (proj1 (down_engine_call (R := flatRuntime) (sampleBuilder quietEngine)
                  ∅ "" 5 "2" 2 eq_refl
                  ltac:(split; [discriminate|split; reflexivity]))
           ltac:(lia)).
Defined.

(** X18 at work: [create init] where the directory cannot be written. *)
Lemma create_reports_MakeMigrate_witness :
  buildCreateCmd_Run (R := readOnlyRuntime) (sampleBuilder quietEngine)
    1700000000123456789 ["init"] (start (R := readOnlyRuntime) ∅)
  = (Exited,
     @Build_World readOnlyRuntime ∅
       (setupEvents (sampleBuilder quietEngine)
        ++ [LogFatal defaultLogger
              "open migrations/20231114221320_init.up.sql: permission denied" []])).
Proof.
  assert (MakeMigrate (R := readOnlyRuntime) (migrator (sampleBuilder quietEngine))
            1700000000123456789 "" "" "init" "" false 6
            (@Build_World readOnlyRuntime ∅ (setupEvents (sampleBuilder quietEngine)))
          = (Next (Some (errorsNew
                     "open migrations/20231114221320_init.up.sql: permission denied")),
             @Build_World readOnlyRuntime ∅ (setupEvents (sampleBuilder quietEngine))))
    as Hrun.
  { unfold MakeMigrate, WriteFile, readFS, mbind, mret, Cmd_bind, Cmd_ret.
    cbn [sampleBuilder migrator sampleMigrator migrateFunc sampleResult Empty
         fst snd files output].
    match goal with
    | |- context [ upAndDownFilePath ?m ?fs ?c ?tz ?f ?n ?e ?s ?d ] =>
        assert (upAndDownFilePath m fs c tz f n e s d
                = Ok ("migrations/20231114221320_init.up.sql",
                      "migrations/20231114221320_init.up.sql"))
          as -> by (vm_compute; reflexivity)
    end.
    reflexivity. }
  exact (create_reports_MakeMigrate (R := readOnlyRuntime) (sampleBuilder quietEngine)
           _ _ "init" [] _ _ Hrun).
Defined.
